(** * wrangler cfetch/internal.ts: the Cloudflare API transport

    A shallow embedding of [packages/wrangler/src/cfetch/internal.ts] and the
    properties of its five exported operations.

    Conventions of the embedding.
    - A JavaScript string is a [string]; one [ascii] stands for one code
      unit, so [String.length] is the [length] property and [substring] is
      [String.prototype.substring].
    - A plain object used as a record of headers is a [JsObject.t]: the
      properties in creation order.
    - An [async] function is a tree of calls to the collaborators of the
      module ([Async]); the environment answers each call or makes it throw.
*)

From Stdlib Require Import String Ascii List Arith NArith Bool Lia.
From Stdlib Require Import Decimal DecimalString Permutation.
Import ListNotations.
Open Scope string_scope.

(** ** Strings *)

Module JsString.

(** The code unit U+0022, written by its code. *)
Definition dquote : string := String (ascii_of_nat 34) "".

(** The code unit U+000A. *)
Definition newline : string := String (ascii_of_nat 10) "".

(** A template-literal hole holding a number: its decimal digits. *)
Definition ofNumber (n : nat) : string :=
  NilEmpty.string_of_uint (Nat.to_uint n).

(** [s.startsWith(p)]. *)
Definition startsWith (p s : string) : bool := prefix p s.

(** [!s] on a string: only the empty string is falsy. *)
Definition isEmpty (s : string) : bool :=
  match s with
  | EmptyString => true
  | String _ _ => false
  end.

Fixpoint join (sep : string) (parts : list string) : string :=
  match parts with
  | [] => ""
  | [p] => p
  | p :: rest => p ++ sep ++ join sep rest
  end.

Definition hexDigit (n : nat) : ascii :=
  if (n <? 10)%nat then ascii_of_nat (48 + n) else ascii_of_nat (87 + n).

(** QuoteJSONString of ECMA-262, on one code unit. *)
Definition quoteUnit (c : ascii) : string :=
  let n := nat_of_ascii c in
  if (n =? 34)%nat then String (ascii_of_nat 92) dquote
  else if (n =? 92)%nat then String c (String c "")
  else if (n =? 8)%nat then String (ascii_of_nat 92) "b"
  else if (n =? 9)%nat then String (ascii_of_nat 92) "t"
  else if (n =? 10)%nat then String (ascii_of_nat 92) "n"
  else if (n =? 12)%nat then String (ascii_of_nat 92) "f"
  else if (n =? 13)%nat then String (ascii_of_nat 92) "r"
  else if (n <? 32)%nat then
    String (ascii_of_nat 92)
      ("u00" ++ String (hexDigit (n / 16)) (String (hexDigit (n mod 16)) ""))
  else String c "".

Fixpoint quoteBody (s : string) : string :=
  match s with
  | EmptyString => ""
  | String c rest => quoteUnit c ++ quoteBody rest
  end.

(** [JSON.stringify(s)] for a string [s]. *)
Definition quote (s : string) : string := dquote ++ quoteBody s ++ dquote.

End JsString.

(** ** Plain objects with string values *)

Module JsObject.

(** The own properties, in the order they were created. *)
Definition t : Type := list (string * string).

Definition empty : t := [].

(** [k in o], for a name [k] that [Object.prototype] does not have. *)
Fixpoint has (k : string) (o : t) : bool :=
  match o with
  | [] => false
  | (k', _) :: rest => if String.eqb k k' then true else has k rest
  end.

(** [o[k]]; [None] is [undefined]. *)
Fixpoint get (k : string) (o : t) : option string :=
  match o with
  | [] => None
  | (k', v) :: rest => if String.eqb k k' then Some v else get k rest
  end.

(** [o[k] = v]: an existing property keeps its place, a new one goes last. *)
Fixpoint set (k v : string) (o : t) : t :=
  match o with
  | [] => [(k, v)]
  | (k', v') :: rest =>
      if String.eqb k k' then (k', v) :: rest else (k', v') :: set k v rest
  end.

(** [delete o[k]]. *)
Fixpoint delete (k : string) (o : t) : t :=
  match o with
  | [] => []
  | (k', v') :: rest =>
      if String.eqb k k' then delete k rest else (k', v') :: delete k rest
  end.

(** [Object.fromEntries(entries)]: a later entry overwrites an earlier one. *)
Definition fromEntries (entries : list (string * string)) : t :=
  fold_left (fun o kv => set (fst kv) (snd kv) o) entries empty.

(** An array index: a canonical numeric string below 2^32 - 1. *)
Definition isDigit (c : ascii) : bool :=
  let n := nat_of_ascii c in ((48 <=? n) && (n <=? 57))%nat.

Fixpoint allDigits (s : string) : bool :=
  match s with
  | EmptyString => true
  | String c rest => isDigit c && allDigits rest
  end.

Fixpoint decimalValue (acc : N) (s : string) : N :=
  match s with
  | EmptyString => acc
  | String c rest =>
      decimalValue (acc * 10 + (N.of_nat (nat_of_ascii c) - 48))%N rest
  end.

Definition arrayIndex (k : string) : option N :=
  match k with
  | EmptyString => None
  | String c rest =>
      if allDigits k
         && (negb (nat_of_ascii c =? 48)%nat || JsString.isEmpty rest)
         && (String.length k <=? 10)%nat
      then
        let n := decimalValue 0 k in
        if (n <? 4294967295)%N then Some n else None
      else None
  end.

Fixpoint insertIndexed (n : N) (kv : string * string)
    (l : list (N * (string * string))) : list (N * (string * string)) :=
  match l with
  | [] => [(n, kv)]
  | (m, kv') :: rest =>
      if (n <? m)%N then (n, kv) :: l else (m, kv') :: insertIndexed n kv rest
  end.

Fixpoint indexed (o : t) : list (N * (string * string)) :=
  match o with
  | [] => []
  | kv :: rest =>
      match arrayIndex (fst kv) with
      | Some n => insertIndexed n kv (indexed rest)
      | None => indexed rest
      end
  end.

Definition named (o : t) : t :=
  filter (fun kv => match arrayIndex (fst kv) with
                    | Some _ => false
                    | None => true
                    end) o.

(** [Object.entries(o)]: array indices in ascending order, then the other
    names in creation order (OrdinaryOwnPropertyKeys). *)
Definition entries (o : t) : list (string * string) :=
  (map snd (indexed o) ++ named o)%list.

(** [{ ...o }]. *)
Definition spread (o : t) : t := fromEntries (entries o).

(** [JSON.stringify(o, null, 2)] for an object whose values are strings. *)
Definition stringifyMember (kv : string * string) : string :=
  "  " ++ JsString.quote (fst kv) ++ ": " ++ JsString.quote (snd kv).

Definition stringify (o : t) : string :=
  match entries o with
  | [] => "{}"
  | es =>
      "{" ++ JsString.newline
        ++ JsString.join ("," ++ JsString.newline) (map stringifyMember es)
        ++ JsString.newline ++ "}"
  end.

End JsObject.

(** ** Values that cross the module boundary *)

(** [ApiCredentials] of [../user]: a bearer token, or an API key with the
    account email. *)
Inductive ApiCredentials : Type :=
| ApiToken (apiToken : string)
| AuthKeyEmail (authKey authEmail : string).

(** The [in] test ["apiToken" in auth]. *)
Definition hasApiToken (auth : ApiCredentials) : bool :=
  match auth with
  | ApiToken _ => true
  | AuthKeyEmail _ _ => false
  end.

(** undici's [Headers]: the pairs its [entries()] iterator yields, whose
    names undici keeps in lower case. *)
Module Headers.

Definition t : Type := list (string * string).

Definition lowerUnit (c : ascii) : ascii :=
  let n := nat_of_ascii c in
  if ((65 <=? n) && (n <=? 90))%nat then ascii_of_nat (n + 32) else c.

Fixpoint toLowerCase (s : string) : string :=
  match s with
  | EmptyString => EmptyString
  | String c rest => String (lowerUnit c) (toLowerCase rest)
  end.

Definition entries (h : t) : list (string * string) := h.

(** [h.get(name)]; [None] is [null]. The lookup ignores the case of
    [name]. *)
Fixpoint lookup (name : string) (h : t) : option string :=
  match h with
  | [] => None
  | (k, v) :: rest => if String.eqb name k then Some v else lookup name rest
  end.

Definition get (name : string) (h : t) : option string :=
  lookup (toLowerCase name) h.

End Headers.

(** [HeadersInit] of undici: a [Headers] instance, an array of pairs, or a
    record. *)
Inductive HeadersInit : Type :=
| HI_Headers (h : Headers.t)
| HI_Array (pairs : list (string * string))
| HI_Record (o : JsObject.t).

(** A [File], known by the arguments of its constructor: its parts put
    together, its name, and the [type] option, [None] when none is given.
    The [type] property that the constructor derives from the option, and
    the time stamp, are not modelled. *)
Record File : Type := mkFile {
  file_contents : string;
  file_name : string;
  file_typeOption : option string
}.

(** A value of a form entry: a string, an instance of the [File] that the
    module imports from undici, or a file of another class, for which
    [instanceof File] is false (undici's [formData()] yields the [File] of
    [node:buffer] where there is one). *)
Inductive FormDataEntryValue : Type :=
| EntryString (s : string)
| EntryFile (f : File)
| EntryOtherFile (blob : File).

(** undici's [FormData]: its entries in order. *)
Definition FormData : Type := list (string * FormDataEntryValue).

Inductive BodyInit : Type :=
| Body_string (s : string)
| Body_FormData (form : FormData)
| Body_ArrayBuffer (bytes : string).

(** An [AbortSignal] is only handed on; it is known by a number. *)
Definition AbortSignal : Type := nat.

(** [URLSearchParams], known by what its [toString()] returns. *)
Record URLSearchParams : Type := mkURLSearchParams { toString : string }.

(** The fields of [RequestInit] the module reads or forwards. *)
Record RequestInit : Type := mkRequestInit {
  ri_method : option string;
  ri_headers : option HeadersInit;
  ri_body : option BodyInit;
  ri_signal : option AbortSignal
}.

(** [init = {}]. *)
Definition emptyInit : RequestInit :=
  {| ri_method := None; ri_headers := None; ri_body := None;
     ri_signal := None |}.

(** The second argument of [fetch] as the module builds it. *)
Record FetchInit : Type := mkFetchInit {
  fi_method : option string;
  fi_headers : JsObject.t;
  fi_body : option BodyInit;
  fi_signal : option AbortSignal
}.

(** undici's [Response]. *)
Module Response.

(** A body is [None] when [response.body] is [null]. *)
Record t : Type := make {
  status : nat;
  statusText : string;
  headers : Headers.t;
  body : option string
}.

(** [response.ok]: the status is in the range 200 to 299. *)
Definition ok (r : t) : bool :=
  ((200 <=? status r) && (status r <=? 299))%nat.

(** [await response.text()]: the body read to its end, empty when null. *)
Definition text (r : t) : string :=
  match body r with
  | Some s => s
  | None => ""
  end.

(** [await response.arrayBuffer()]: the bytes of the body, not decoded. *)
Definition arrayBuffer (r : t) : string :=
  match body r with
  | Some s => s
  | None => ""
  end.

(** [!!response.body]. *)
Definition hasBody (r : t) : bool :=
  match body r with
  | Some _ => true
  | None => false
  end.

End Response.

(** An [ArrayBuffer]: its bytes. *)
Definition ArrayBuffer : Type := string.

(** What the module throws, and what its collaborators may throw. *)
Inductive Exn : Type :=
| AssertionError (message : string)
| UserError (message : string)
| Error (message : string)
| APIError (text : string) (notes : list string) (status : nat)
| Foreign (what : string).

(** An argument of a logger call. *)
Inductive LogArg : Type :=
| LogString (s : string)
| LogNumber (n : nat)
| LogBool (b : bool)
| LogBody (b : option string)
| LogNull.

(** ** Asynchronous code as a tree of calls *)

(** The calls the module makes to its collaborators. *)
Inductive Call : Type :=
| loginOrRefreshIfRequired
| requireApiToken
| getCloudflareApiBaseUrl
| logger_debug (args : list LogArg)
| logger_debugWithSanitization (label : string) (args : list LogArg)
| console_error (args : list LogArg)
| FormData_text (form : FormData)
| Response_formData (response : Response.t)
| fetch (url : string) (init : FetchInit).

Definition Answer (c : Call) : Type :=
  match c with
  | loginOrRefreshIfRequired => bool
  | requireApiToken => ApiCredentials
  | getCloudflareApiBaseUrl => string
  | logger_debug _ => unit
  | logger_debugWithSanitization _ _ => unit
  | console_error _ => unit
  | FormData_text _ => string
  | Response_formData _ => FormData
  | fetch _ _ => Response.t
  end.

Inductive Async (A : Type) : Type :=
| Return (a : A)
| Throw (e : Exn)
| Await (c : Call) (k : Answer c -> Async A).

Arguments Return {A} a.
Arguments Throw {A} e.
Arguments Await {A} c k.

Fixpoint bind {A B : Type} (m : Async A) (f : A -> Async B) : Async B :=
  match m with
  | Return a => f a
  | Throw e => Throw e
  | Await c k => Await c (fun x => bind (k x) f)
  end.

Definition call (c : Call) : Async (Answer c) := Await c Return.

Declare Scope async_scope.
Delimit Scope async_scope with async.
Notation "x <- m ;; k" := (bind m (fun x => k))
  (at level 61, m at next level, right associativity) : async_scope.
Notation "m ;; k" := (bind m (fun _ => k))
  (at level 61, right associativity) : async_scope.
Open Scope async_scope.

(** A call with its outcome: the value it returned or what it threw. *)
Inductive Event : Type :=
| Ev (c : Call) (r : Exn + Answer c).

(** The environment: what a call returns, given the calls made so far. *)
Definition World : Type := list Event -> forall c : Call, Exn + Answer c.

(** Running a tree after a history of earlier calls: the outcome, and the
    calls made, in order. *)
Fixpoint exec {A : Type} (w : World) (hist : list Event) (p : Async A)
    : (Exn + A) * list Event :=
  match p with
  | Return a => (inr a, [])
  | Throw e => (inl e, [])
  | Await c k =>
      let r := w hist c in
      match r with
      | inl e => (inl e, [Ev c r])
      | inr x =>
          let out := exec w (hist ++ [Ev c r])%list (k x) in
          (fst out, Ev c r :: snd out)
      end
  end.

(** An environment whose answers do not depend on the history. Logging,
    reading the base URL and writing a form out as text return; the other
    collaborators may throw. *)
Record Env : Type := mkEnv {
  env_login : Exn + bool;
  env_apiToken : Exn + ApiCredentials;
  env_baseUrl : string;
  env_formDataText : FormData -> string;
  env_formData : Response.t -> Exn + FormData;
  env_fetch : string -> FetchInit -> Exn + Response.t
}.

Definition answer (env : Env) (c : Call) : Exn + Answer c :=
  match c with
  | loginOrRefreshIfRequired => env_login env
  | requireApiToken => env_apiToken env
  | getCloudflareApiBaseUrl => inr (env_baseUrl env)
  | logger_debug _ => inr tt
  | logger_debugWithSanitization _ _ => inr tt
  | console_error _ => inr tt
  | FormData_text form => inr (env_formDataText env form)
  | Response_formData response => env_formData env response
  | fetch url init => env_fetch env url init
  end.

Definition world (env : Env) : World := fun _ => answer env.

(** Running a tree in [env]: the outcome and the calls made, in order. *)
Fixpoint interp {A : Type} (env : Env) (p : Async A)
    : (Exn + A) * list Event :=
  match p with
  | Return a => (inr a, [])
  | Throw e => (inl e, [])
  | Await c k =>
      let r := answer env c in
      match r with
      | inl e => (inl e, [Ev c r])
      | inr x => let out := interp env (k x) in (fst out, Ev c r :: snd out)
      end
  end.

(** The outcome of a call of the module in [env]. *)
Definition run {A : Type} (env : Env) (p : Async A) : Exn + A :=
  fst (interp env p).

(** The calls it made. *)
Definition calls {A : Type} (env : Env) (p : Async A) : list Event :=
  snd (interp env p).

(** The requests among some events. *)
Fixpoint requests (evs : list Event) : list (string * FetchInit) :=
  match evs with
  | [] => []
  | Ev (fetch url init) _ :: rest => (url, init) :: requests rest
  | Ev _ _ :: rest => requests rest
  end.

(** The responses that requests resolved with, among some events. *)
Fixpoint responses (evs : list Event) : list Response.t :=
  match evs with
  | [] => []
  | Ev (fetch _ _) (inr response) :: rest => response :: responses rest
  | Ev _ _ :: rest => responses rest
  end.

(** [raises p e]: the tree [p] itself throws [e] on some path. What a
    collaborator throws is an answer of the environment, not a [Throw]. *)
Fixpoint raises {A : Type} (p : Async A) (e : Exn) : Prop :=
  match p with
  | Return _ => False
  | Throw e' => e' = e
  | Await c k => exists x : Answer c, raises (k x) e
  end.

(** The arguments of the [HEADERS:] log lines among some events. *)
Fixpoint headerLogs (evs : list Event) : list (list LogArg) :=
  match evs with
  | [] => []
  | Ev (logger_debugWithSanitization label args) _ :: rest =>
      if String.eqb label "HEADERS:" then args :: headerLogs rest
      else headerLogs rest
  | Ev _ _ :: rest => headerLogs rest
  end.

(** ** The module *)

Section Transport.

(** [version] of [package.json]. *)
Variable wranglerVersion : string.

(** [JSON.stringify({ ...init }, null, 2)]. *)
Variable stringifyInit : RequestInit -> string.

Definition truncate (text : string) (maxLength : nat) : string :=
  let length := String.length text in
  if (length <=? maxLength)%nat then text
  else substring 0 maxLength text ++ "... (length = "
         ++ JsString.ofNumber length ++ ")".

Definition cloneHeaders (headers : option HeadersInit) : JsObject.t :=
  match headers with
  | Some (HI_Headers h) => JsObject.fromEntries (Headers.entries h)
  | Some (HI_Array pairs) => JsObject.fromEntries pairs
  | Some (HI_Record o) => JsObject.spread o
  | None => JsObject.empty
  end.

Definition requireLoggedIn : Async unit :=
  loggedIn <- call loginOrRefreshIfRequired ;;
  if negb loggedIn then Throw (UserError "Not logged in.")
  else Return tt.

(** The function updates [headers] in place; here it returns the updated
    record. *)
Definition addAuthorizationHeaderIfUnspecified
    (headers : JsObject.t) (auth : ApiCredentials) : JsObject.t :=
  if negb (JsObject.has "Authorization" headers) then
    match auth with
    | ApiToken apiToken =>
        JsObject.set "Authorization" ("Bearer " ++ apiToken) headers
    | AuthKeyEmail authKey authEmail =>
        JsObject.set "X-Auth-Email" authEmail
          (JsObject.set "X-Auth-Key" authKey headers)
    end
  else headers.

Definition addUserAgent (headers : JsObject.t) : JsObject.t :=
  JsObject.set "User-Agent" ("wrangler/" ++ wranglerVersion) headers.

(** [assert(value, message)] of [node:assert]. *)
Definition assert (value : bool) (message : string) : Async unit :=
  if value then Return tt else Throw (AssertionError message).

(** The failure message the three raw fetches share. *)
Definition failedToFetch (resource : string) (response : Response.t)
    : string :=
  "Failed to fetch " ++ resource ++ " - "
    ++ JsString.ofNumber (Response.status response) ++ ": "
    ++ Response.statusText response ++ ");".

Definition performApiFetch (resource : string) (init : RequestInit)
    (queryParams : option URLSearchParams)
    (abortSignal : option AbortSignal) : Async Response.t :=
  let method := match ri_method init with
                | Some m => m
                | None => "GET"
                end in
  assert (JsString.startsWith "/" resource)
    ("CF API fetch - resource path must start with a "
       ++ JsString.dquote ++ "/" ++ JsString.dquote ++ " but got "
       ++ JsString.dquote ++ resource ++ JsString.dquote) ;;
  requireLoggedIn ;;
  apiToken <- call requireApiToken ;;
  let headers := cloneHeaders (ri_headers init) in
  let headers := addAuthorizationHeaderIfUnspecified headers apiToken in
  let headers := addUserAgent headers in
  let queryString := match queryParams with
                     | Some q => "?" ++ toString q
                     | None => ""
                     end in
  base <- call getCloudflareApiBaseUrl ;;
  call (logger_debug
          [LogString ("-- START CF API REQUEST: " ++ method ++ " "
                        ++ base ++ resource ++ queryString)]) ;;
  let logHeaders := cloneHeaders (Some (HI_Record headers)) in
  let logHeaders := JsObject.delete "Authorization" logHeaders in
  call (logger_debugWithSanitization "HEADERS:"
          [LogString (JsObject.stringify logHeaders)]) ;;
  call (logger_debugWithSanitization "INIT:"
          [LogString (stringifyInit init)]) ;;
  match ri_body init with
  | Some (Body_FormData form) =>
      bodyText <- call (FormData_text form) ;;
      call (logger_debugWithSanitization "BODY:"
              [LogString bodyText; LogNull; LogNumber 2])
  | _ => Return tt
  end ;;
  call (logger_debug [LogString "-- END CF API REQUEST"]) ;;
  base <- call getCloudflareApiBaseUrl ;;
  call (fetch (base ++ resource ++ queryString)
          {| fi_method := Some method;
             fi_headers := headers;
             fi_body := ri_body init;
             fi_signal := abortSignal |}).

Section FetchInternal.

(** The type argument of [fetchInternal] and [parseJSON]. *)
Variable ResponseType : Type.

(** [parseJSON] of [../parse]: the parsed value, or the error thrown. *)
Variable parseJSON : string -> Exn + ResponseType.

Definition emptyBody : string :=
  "{" ++ JsString.dquote ++ "result" ++ JsString.dquote ++ ": {}, "
    ++ JsString.dquote ++ "success" ++ JsString.dquote ++ ": true, "
    ++ JsString.dquote ++ "errors" ++ JsString.dquote ++ ": [], "
    ++ JsString.dquote ++ "messages" ++ JsString.dquote ++ ": []}".

Definition fetchInternal (resource : string) (init : RequestInit)
    (queryParams : option URLSearchParams)
    (abortSignal : option AbortSignal) : Async ResponseType :=
  let method := match ri_method init with
                | Some m => m
                | None => "GET"
                end in
  response <- performApiFetch resource init queryParams abortSignal ;;
  let jsonText := Response.text response in
  call (logger_debug
          [LogString "-- START CF API RESPONSE:";
           LogString (Response.statusText response);
           LogNumber (Response.status response)]) ;;
  let logHeaders :=
    cloneHeaders (Some (HI_Headers (Response.headers response))) in
  let logHeaders := JsObject.delete "Authorization" logHeaders in
  call (logger_debugWithSanitization "HEADERS:"
          [LogString (JsObject.stringify logHeaders)]) ;;
  call (logger_debugWithSanitization "RESPONSE:" [LogString jsonText]) ;;
  call (logger_debug [LogString "-- END CF API RESPONSE"]) ;;
  if JsString.isEmpty jsonText
     && ((Response.status response =? 204)%nat
         || (Response.status response =? 205)%nat)
  then
    match parseJSON emptyBody with
    | inr value => Return value
    | inl err => Throw err
    end
  else
    match parseJSON jsonText with
    | inr value => Return value
    | inl _ =>
        Throw (APIError "Received a malformed response from the API"
                 [truncate jsonText 100;
                  method ++ " " ++ resource ++ " -> "
                    ++ JsString.ofNumber (Response.status response) ++ " "
                    ++ Response.statusText response]
                 (Response.status response))
    end.

End FetchInternal.

Definition fetchKVGetValue (accountId namespaceId key : string)
    : Async ArrayBuffer :=
  requireLoggedIn ;;
  auth <- call requireApiToken ;;
  let headers := JsObject.empty in
  let headers := addAuthorizationHeaderIfUnspecified headers auth in
  base <- call getCloudflareApiBaseUrl ;;
  let resource := base ++ "/accounts/" ++ accountId
                    ++ "/storage/kv/namespaces/" ++ namespaceId
                    ++ "/values/" ++ key in
  response <- call (fetch resource
                      {| fi_method := Some "GET";
                         fi_headers := headers;
                         fi_body := None;
                         fi_signal := None |}) ;;
  if Response.ok response then Return (Response.arrayBuffer response)
  else Throw (Error (failedToFetch resource response)).

(** [{ ...bodyInit, headers }]. *)
Definition withHeaders (bodyInit : RequestInit) (headers : JsObject.t)
    : FetchInit :=
  {| fi_method := ri_method bodyInit;
     fi_headers := headers;
     fi_body := ri_body bodyInit;
     fi_signal := ri_signal bodyInit |}.

(** The result is the response itself, or [None] for [null]. *)
Definition fetchR2Objects (resource : string) (bodyInit : RequestInit)
    : Async (option Response.t) :=
  requireLoggedIn ;;
  auth <- call requireApiToken ;;
  let headers := cloneHeaders (ri_headers bodyInit) in
  let headers := addAuthorizationHeaderIfUnspecified headers auth in
  let headers := addUserAgent headers in
  base <- call getCloudflareApiBaseUrl ;;
  response <- call (fetch (base ++ resource)
                      (withHeaders bodyInit headers)) ;;
  if Response.ok response && Response.hasBody response then
    Return (A := option Response.t) (Some response)
  else if (Response.status response =? 404)%nat then Return None
  else Throw (Error (failedToFetch resource response)).

Record Worker : Type := mkWorker {
  entrypoint : string;
  modules : list File
}.

(** The callback of [map] in [fetchWorker]: an instance of [File] is kept;
    anything else, a string or a file of another class, is wrapped by
    [new File([contents], filename)] in a [File] named after its field. *)
Definition toFile (entry : string * FormDataEntryValue) : File :=
  let (filename, contents) := entry in
  match contents with
  | EntryFile f => f
  | EntryString s =>
      {| file_contents := s; file_name := filename;
         file_typeOption := None |}
  | EntryOtherFile blob =>
      {| file_contents := file_contents blob; file_name := filename;
         file_typeOption := None |}
  end.

(** [response.headers.get("content-type")?.startsWith("multipart")]. *)
Definition usesModules (response : Response.t) : bool :=
  match Headers.get "content-type" (Response.headers response) with
  | Some contentType => JsString.startsWith "multipart" contentType
  | None => false
  end.

(** undici's [Response] always has [formData], so the guard that rebuilds
    the response for the test mock does not fire. *)
Definition fetchWorker (resource : string) (bodyInit : RequestInit)
    : Async Worker :=
  requireLoggedIn ;;
  auth <- call requireApiToken ;;
  let headers := cloneHeaders (ri_headers bodyInit) in
  let headers := addAuthorizationHeaderIfUnspecified headers auth in
  let headers := addUserAgent headers in
  base <- call getCloudflareApiBaseUrl ;;
  response <- call (fetch (base ++ resource)
                      (withHeaders bodyInit headers)) ;;
  if negb (Response.ok response) || negb (Response.hasBody response) then
    call (console_error [LogBool (Response.ok response);
                         LogBody (Response.body response)]) ;;
    Throw (Error (failedToFetch resource response))
  else if usesModules response then
    form <- call (Response_formData response) ;;
    let files := map toFile form in
    Return {| entrypoint :=
                match Headers.get "cf-entrypoint"
                        (Response.headers response) with
                | Some e => e
                | None => "src/index.js"
                end;
              modules := files |}
  else
    let contents := Response.text response in
    let file := {| file_contents := contents; file_name := "index.js";
                   file_typeOption := Some "text" |} in
    Return {| entrypoint := "index.js"; modules := [file] |}.

End Transport.

(** ** JSON texts

    [parseJSON] is a parameter of [fetchInternal]. This module gives one
    instance of it, a reader of JSON texts (ECMA-404), for the statements
    that look inside a parsed value. Numbers are kept as written, and an
    escape above U+00FF, which a [string] cannot hold, is refused. *)

Module Json.

#[local] Set Warnings "-register-all".

Inductive value : Type :=
| Null
| Bool (b : bool)
| Number (lexeme : string)
| Str (s : string)
| Array (items : list value)
| Object (members : list (string * value)).

(** A member of an object; a repeated name keeps its last value. *)
Fixpoint setMember (k : string) (v : value) (ms : list (string * value))
    : list (string * value) :=
  match ms with
  | [] => [(k, v)]
  | (k', v') :: rest =>
      if String.eqb k k' then (k', v) :: rest
      else (k', v') :: setMember k v rest
  end.

Fixpoint member (k : string) (ms : list (string * value)) : option value :=
  match ms with
  | [] => None
  | (k', v) :: rest => if String.eqb k k' then Some v else member k rest
  end.

Definition isWs (c : ascii) : bool :=
  let n := nat_of_ascii c in
  ((n =? 32) || (n =? 9) || (n =? 10) || (n =? 13))%nat.

Fixpoint skipWs (s : string) : string :=
  match s with
  | String c rest => if isWs c then skipWs rest else s
  | EmptyString => s
  end.

Definition hexValue (c : ascii) : option nat :=
  let n := nat_of_ascii c in
  if ((48 <=? n) && (n <=? 57))%nat then Some (n - 48)
  else if ((97 <=? n) && (n <=? 102))%nat then Some (n - 87)
  else if ((65 <=? n) && (n <=? 70))%nat then Some (n - 55)
  else None.

(** The four hex digits after a backslash and u. *)
Definition unicodeEscape (s : string) : option (ascii * string) :=
  match s with
  | String a (String b (String c (String d rest))) =>
      match hexValue a, hexValue b, hexValue c, hexValue d with
      | Some 0, Some 0, Some x, Some y =>
          Some (ascii_of_nat (16 * x + y), rest)
      | _, _, _, _ => None
      end
  | _ => None
  end.

Definition simpleEscape (c : ascii) : option ascii :=
  let n := nat_of_ascii c in
  if ((n =? 34) || (n =? 92) || (n =? 47))%nat then Some c
  else if (n =? 98)%nat then Some (ascii_of_nat 8)
  else if (n =? 102)%nat then Some (ascii_of_nat 12)
  else if (n =? 110)%nat then Some (ascii_of_nat 10)
  else if (n =? 114)%nat then Some (ascii_of_nat 13)
  else if (n =? 116)%nat then Some (ascii_of_nat 9)
  else None.

(** The rest of a string literal, after its opening quote. *)
Fixpoint stringTail (fuel : nat) (s : string) : option (string * string) :=
  match fuel with
  | O => None
  | S fuel' =>
      match s with
      | EmptyString => None
      | String c rest =>
          let n := nat_of_ascii c in
          if (n =? 34)%nat then Some (EmptyString, rest)
          else if (n =? 92)%nat then
            match rest with
            | EmptyString => None
            | String e rest' =>
                if (nat_of_ascii e =? 117)%nat then
                  match unicodeEscape rest' with
                  | Some (u, rest'') =>
                      match stringTail fuel' rest'' with
                      | Some (str, out) => Some (String u str, out)
                      | None => None
                      end
                  | None => None
                  end
                else
                  match simpleEscape e with
                  | Some u =>
                      match stringTail fuel' rest' with
                      | Some (str, out) => Some (String u str, out)
                      | None => None
                      end
                  | None => None
                  end
            end
          else if (n <? 32)%nat then None
          else
            match stringTail fuel' rest with
            | Some (str, out) => Some (String c str, out)
            | None => None
            end
      end
  end.

Definition isDigit (c : ascii) : bool :=
  let n := nat_of_ascii c in ((48 <=? n) && (n <=? 57))%nat.

(** The longest run of digits at the head of a string. *)
Fixpoint digits (s : string) : string * string :=
  match s with
  | String c rest =>
      if isDigit c then let (d, out) := digits rest in (String c d, out)
      else (EmptyString, s)
  | EmptyString => (EmptyString, s)
  end.

Definition intPart (s : string) : option (string * string) :=
  match digits s with
  | (EmptyString, _) => None
  | (String c d, out) =>
      if (nat_of_ascii c =? 48)%nat && negb (JsString.isEmpty d) then None
      else Some (String c d, out)
  end.

Definition fracPart (s : string) : option (string * string) :=
  match s with
  | String c rest =>
      if (nat_of_ascii c =? 46)%nat then
        match digits rest with
        | (EmptyString, _) => None
        | (d, out) => Some (String c d, out)
        end
      else Some (EmptyString, s)
  | EmptyString => Some (EmptyString, s)
  end.

Definition signPart (s : string) : string * string :=
  match s with
  | String c rest =>
      if ((nat_of_ascii c =? 43) || (nat_of_ascii c =? 45))%nat
      then (String c EmptyString, rest)
      else (EmptyString, s)
  | EmptyString => (EmptyString, s)
  end.

Definition expPart (s : string) : option (string * string) :=
  match s with
  | String c rest =>
      if ((nat_of_ascii c =? 101) || (nat_of_ascii c =? 69))%nat then
        let (sign, rest') := signPart rest in
        match digits rest' with
        | (EmptyString, _) => None
        | (d, out) => Some (String c (sign ++ d), out)
        end
      else Some (EmptyString, s)
  | EmptyString => Some (EmptyString, s)
  end.

Definition number (s : string) : option (string * string) :=
  let (minus, s1) :=
    match s with
    | String c rest =>
        if (nat_of_ascii c =? 45)%nat then (String c EmptyString, rest)
        else (EmptyString, s)
    | EmptyString => (EmptyString, s)
    end in
  match intPart s1 with
  | None => None
  | Some (i, s2) =>
      match fracPart s2 with
      | None => None
      | Some (f, s3) =>
          match expPart s3 with
          | None => None
          | Some (e, s4) => Some (minus ++ i ++ f ++ e, s4)
          end
      end
  end.

(** [literal word v s]: [s] starts with [word]. *)
Definition literal (word : string) (v : value) (s : string)
    : option (value * string) :=
  if prefix word s
  then Some (v, substring (String.length word)
                  (String.length s - String.length word) s)
  else None.

Fixpoint parseValue (fuel : nat) (s : string) : option (value * string) :=
  match fuel with
  | O => None
  | S fuel' =>
      match skipWs s with
      | EmptyString => None
      | String c rest =>
          let n := nat_of_ascii c in
          if (n =? 110)%nat then literal "null" Null (String c rest)
          else if (n =? 116)%nat then
            literal "true" (Bool true) (String c rest)
          else if (n =? 102)%nat then
            literal "false" (Bool false) (String c rest)
          else if (n =? 34)%nat then
            match stringTail (String.length rest) rest with
            | Some (str, out) => Some (Str str, out)
            | None => None
            end
          else if (n =? 91)%nat then
            match skipWs rest with
            | String c' rest' =>
                if (nat_of_ascii c' =? 93)%nat then Some (Array [], rest')
                else
                  match parseElements fuel' rest with
                  | Some (items, out) => Some (Array items, out)
                  | None => None
                  end
            | EmptyString => None
            end
          else if (n =? 123)%nat then
            match skipWs rest with
            | String c' rest' =>
                if (nat_of_ascii c' =? 125)%nat then Some (Object [], rest')
                else
                  match parseMembers fuel' [] rest with
                  | Some (ms, out) => Some (Object ms, out)
                  | None => None
                  end
            | EmptyString => None
            end
          else
            match number (String c rest) with
            | Some (lexeme, out) => Some (Number lexeme, out)
            | None => None
            end
      end
  end

(** The elements of an array after its bracket, up to the closing one. *)
with parseElements (fuel : nat) (s : string)
    : option (list value * string) :=
  match fuel with
  | O => None
  | S fuel' =>
      match parseValue fuel' s with
      | None => None
      | Some (v, out) =>
          match skipWs out with
          | String c rest =>
              if (nat_of_ascii c =? 93)%nat then Some ([v], rest)
              else if (nat_of_ascii c =? 44)%nat then
                match parseElements fuel' rest with
                | Some (vs, out') => Some (v :: vs, out')
                | None => None
                end
              else None
          | EmptyString => None
          end
      end
  end

(** The members of an object after its brace, up to the closing one. *)
with parseMembers (fuel : nat) (acc : list (string * value)) (s : string)
    : option (list (string * value) * string) :=
  match fuel with
  | O => None
  | S fuel' =>
      match skipWs s with
      | String q rest =>
          if (nat_of_ascii q =? 34)%nat then
            match stringTail (String.length rest) rest with
            | None => None
            | Some (k, out) =>
                match skipWs out with
                | String colon out1 =>
                    if (nat_of_ascii colon =? 58)%nat then
                      match parseValue fuel' out1 with
                      | None => None
                      | Some (v, out2) =>
                          let acc' := setMember k v acc in
                          match skipWs out2 with
                          | String c out3 =>
                              if (nat_of_ascii c =? 125)%nat
                              then Some (acc', out3)
                              else if (nat_of_ascii c =? 44)%nat
                              then parseMembers fuel' acc' out3
                              else None
                          | EmptyString => None
                          end
                      end
                    else None
                | EmptyString => None
                end
            end
          else None
      | EmptyString => None
      end
  end.

(** A whole text: one value with white space around it. *)
Definition parse (s : string) : option value :=
  match parseValue (S (String.length s)) s with
  | Some (v, out) => if JsString.isEmpty (skipWs out) then Some v else None
  | None => None
  end.

(** The instance of [parseJSON]: a text that is not JSON makes it throw. *)
Definition parseJSON (input : string) : Exn + value :=
  match parse input with
  | Some v => inr v
  | None => inl (Foreign "ParseError")
  end.

(** The envelope of the API: an object with the four fields. *)
Definition isEnvelope (v : value) : bool :=
  match v with
  | Object ms =>
      match member "result" ms, member "success" ms,
            member "errors" ms, member "messages" ms with
      | Some _, Some _, Some _, Some _ => true
      | _, _, _, _ => false
      end
  | _ => false
  end.

End Json.

(** ** The exported operations as one family *)

Section Operations.

Variable wranglerVersion : string.
Variable stringifyInit : RequestInit -> string.
Variable ResponseType : Type.
Variable parseJSON : string -> Exn + ResponseType.

(** A call of an exported function with its arguments. *)
Inductive Operation : Type :=
| PerformApiFetch (resource : string) (init : RequestInit)
    (queryParams : option URLSearchParams)
    (abortSignal : option AbortSignal)
| FetchInternal (resource : string) (init : RequestInit)
    (queryParams : option URLSearchParams)
    (abortSignal : option AbortSignal)
| FetchKVGetValue (accountId namespaceId key : string)
| FetchR2Objects (resource : string) (bodyInit : RequestInit)
| FetchWorker (resource : string) (bodyInit : RequestInit).

(** What a call resolves with. *)
Inductive Result : Type :=
| ApiResponse (response : Response.t)
| Parsed (value : ResponseType)
| Value (bytes : ArrayBuffer)
| R2Object (response : option Response.t)
| Script (worker : Worker).

Definition perform (op : Operation) : Async Result :=
  match op with
  | PerformApiFetch resource init queryParams abortSignal =>
      r <- performApiFetch wranglerVersion stringifyInit
             resource init queryParams abortSignal ;;
      Return (ApiResponse r)
  | FetchInternal resource init queryParams abortSignal =>
      r <- fetchInternal wranglerVersion stringifyInit ResponseType
             parseJSON resource init queryParams abortSignal ;;
      Return (Parsed r)
  | FetchKVGetValue accountId namespaceId key =>
      r <- fetchKVGetValue accountId namespaceId key ;;
      Return (Value r)
  | FetchR2Objects resource bodyInit =>
      r <- fetchR2Objects wranglerVersion resource bodyInit ;;
      Return (R2Object r)
  | FetchWorker resource bodyInit =>
      r <- fetchWorker wranglerVersion resource bodyInit ;;
      Return (Script r)
  end.

(** The headers the caller handed in; [fetchKVGetValue] takes none. *)
Definition callerHeaders (op : Operation) : JsObject.t :=
  match op with
  | PerformApiFetch _ init _ _ => cloneHeaders (ri_headers init)
  | FetchInternal _ init _ _ => cloneHeaders (ri_headers init)
  | FetchKVGetValue _ _ _ => JsObject.empty
  | FetchR2Objects _ bodyInit => cloneHeaders (ri_headers bodyInit)
  | FetchWorker _ bodyInit => cloneHeaders (ri_headers bodyInit)
  end.

(** The headers an operation hands to [fetch] for a credential. *)
Definition outgoingHeaders (op : Operation) (auth : ApiCredentials)
    : JsObject.t :=
  match op with
  | FetchKVGetValue _ _ _ =>
      addAuthorizationHeaderIfUnspecified JsObject.empty auth
  | _ =>
      addUserAgent wranglerVersion
        (addAuthorizationHeaderIfUnspecified (callerHeaders op) auth)
  end.

End Operations.

(** ** The two forms of authentication in a record of headers *)

(** Token auth: an [Authorization] header. *)
Definition tokenAuth (headers : JsObject.t) : bool :=
  JsObject.has "Authorization" headers.

(** Two header names are the same name: HTTP compares them without regard
    to case. *)
Definition sameName (a b : string) : bool :=
  String.eqb (Headers.toLowerCase a) (Headers.toLowerCase b).

(** [carries name headers]: the record holds a header of that name, under
    any spelling. *)
Definition carries (name : string) (headers : JsObject.t) : bool :=
  existsb (fun kv => sameName (fst kv) name) headers.

(** Token auth is present: an [Authorization] header. *)
Definition tokenForm (headers : JsObject.t) : bool :=
  carries "Authorization" headers.

(** Key auth is present: the pair [X-Auth-Key] and [X-Auth-Email]. *)
Definition keyForm (headers : JsObject.t) : bool :=
  carries "X-Auth-Key" headers && carries "X-Auth-Email" headers.

(** Exactly one of the two forms: not both, not neither. *)
Definition exactlyOneForm (headers : JsObject.t) : bool :=
  xorb (tokenForm headers) (keyForm headers).

(** The headers a credential is sent as. *)
Definition sentAs (auth : ApiCredentials) (headers : JsObject.t) : Prop :=
  match auth with
  | ApiToken apiToken =>
      JsObject.get "Authorization" headers = Some ("Bearer " ++ apiToken)
  | AuthKeyEmail authKey authEmail =>
      JsObject.get "X-Auth-Key" headers = Some authKey
      /\ JsObject.get "X-Auth-Email" headers = Some authEmail
  end.

(** [blank k o]: [o] with the value of [k], if any, replaced by the empty
    string. Two records with the same [blank k] differ at most in the value
    of [k]. *)
Definition blank1 (k : string) (kv : string * string) : string * string :=
  if String.eqb k (fst kv) then (fst kv, "") else kv.

Definition blank (k : string) (o : JsObject.t) : JsObject.t :=
  map (blank1 k) o.

(** ** Counting requests in a tree *)

Definition isFetchCall (c : Call) : bool :=
  match c with
  | fetch _ _ => true
  | _ => false
  end.

(** [fetchBound n p]: whatever the environment answers, [p] calls [fetch]
    at most [n] times. *)
Inductive fetchBound {A : Type} : nat -> Async A -> Prop :=
| fetchBound_Return (n : nat) (a : A) : fetchBound n (Return a)
| fetchBound_Throw (n : nat) (e : Exn) : fetchBound n (Throw e)
| fetchBound_fetch (n : nat) (url : string) (init : FetchInit)
    (k : Response.t -> Async A) :
    (forall r, fetchBound n (k r)) ->
    fetchBound (S n) (Await (fetch url init) k)
| fetchBound_other (n : nat) (c : Call) (k : Answer c -> Async A) :
    isFetchCall c = false ->
    (forall x, fetchBound n (k x)) ->
    fetchBound n (Await c k).

(** The world as it is after the calls [hist]. *)
Definition after (hist : list Event) (w : World) : World :=
  fun h => w (hist ++ h)%list.

(** ** Environments *)

(** [env] with other credentials. *)
Definition withCredentials (auth : ApiCredentials) (env : Env) : Env :=
  {| env_login := env_login env;
     env_apiToken := inr auth;
     env_baseUrl := env_baseUrl env;
     env_formDataText := env_formDataText env;
     env_formData := env_formData env;
     env_fetch := env_fetch env |}.

(** Environments and arguments for the examples: a user who is logged in,
    and a server that answers every request with [response]. *)
Module Sample.

Definition version : string := "3.0.0".

Definition stringifyInit (init : RequestInit) : string := "{}".

Definition env (auth : ApiCredentials) (response : Response.t) : Env :=
  {| env_login := inr true;
     env_apiToken := inr auth;
     env_baseUrl := "https://api.cloudflare.com/client/v4";
     env_formDataText := fun _ => "";
     env_formData := fun _ => inl (Foreign "TypeError");
     env_fetch := fun _ _ => inr response |}.

Definition token : ApiCredentials := ApiToken "t0ken".

Definition respond (status : nat) (statusText : string)
    (body : option string) : Response.t :=
  {| Response.status := status;
     Response.statusText := statusText;
     Response.headers := [("content-type", "application/json")];
     Response.body := body |}.

Definition withRecord (o : JsObject.t) : RequestInit :=
  {| ri_method := None; ri_headers := Some (HI_Record o);
     ri_body := None; ri_signal := None |}.

Definition okJson (body : string) : Response.t :=
  respond 200 "OK" (Some body).

(** A reply to a DELETE: status 204 and no body. *)
Definition noContent : Response.t := respond 204 "No Content" None.

(** A reply that is not JSON. *)
Definition badGateway : Response.t :=
  respond 502 "Bad Gateway" (Some "<html>502 Bad Gateway</html>").

(** A worker made of modules, and what its form data holds. *)
Definition multipart : Response.t :=
  {| Response.status := 200;
     Response.statusText := "OK";
     Response.headers :=
       [("cf-entrypoint", "worker.mjs");
        ("content-type", "multipart/form-data; boundary=xyz")];
     Response.body := Some "--xyz--" |}.

Definition form : FormData :=
  [("worker.mjs",
    EntryFile {| file_contents := "export default {}";
                 file_name := "worker.mjs";
                 file_typeOption := Some "application/javascript+module" |});
   ("data.txt", EntryString "hello")].

(** The line break of a multipart body. *)
Definition crlf : string :=
  String (ascii_of_nat 13) (String (ascii_of_nat 10) "").

(** A multipart body with the boundary [xyz]: a file part and a field. *)
Definition modulesBody : string :=
  "--xyz" ++ crlf
    ++ "Content-Disposition: form-data; name=" ++ JsString.dquote
    ++ "worker.mjs" ++ JsString.dquote ++ "; filename=" ++ JsString.dquote
    ++ "worker.mjs" ++ JsString.dquote ++ crlf
    ++ "Content-Type: application/javascript+module" ++ crlf ++ crlf
    ++ "export default {}" ++ crlf
    ++ "--xyz" ++ crlf
    ++ "Content-Disposition: form-data; name=" ++ JsString.dquote
    ++ "data.txt" ++ JsString.dquote ++ crlf ++ crlf
    ++ "hello" ++ crlf
    ++ "--xyz--" ++ crlf.

(** A worker made of modules, as the API sends it. *)
Definition modulesReply : Response.t :=
  {| Response.status := 200;
     Response.statusText := "OK";
     Response.headers :=
       [("cf-entrypoint", "worker.mjs");
        ("content-type", "multipart/form-data; boundary=xyz")];
     Response.body := Some modulesBody |}.

(** What [formData()] reads from that body: the file part as a file that
    is not an instance of the imported [File], the field as a string. *)
Definition modulesForm : FormData :=
  [("worker.mjs",
    EntryOtherFile
      {| file_contents := "export default {}";
         file_name := "worker.mjs";
         file_typeOption := Some "application/javascript+module" |});
   ("data.txt", EntryString "hello")].

Definition envWithForm (response : Response.t) : Env :=
  {| env_login := inr true;
     env_apiToken := inr token;
     env_baseUrl := "https://api.cloudflare.com/client/v4";
     env_formDataText := fun _ => "";
     env_formData := fun _ => inr modulesForm;
     env_fetch := fun _ _ => inr response |}.

(** [fetchInternal("/zones")] with the reader of [Json]. *)
Definition fetchZones : Async Json.value :=
  fetchInternal version stringifyInit Json.value Json.parseJSON
    "/zones" emptyInit None None.

(** The requests an operation sends, with the reader of [Json]. *)
Definition sent (e : Env) (op : Operation) : list (string * FetchInit) :=
  requests
    (calls e (perform version stringifyInit Json.value Json.parseJSON op)).

(** [performApiFetch("/zones")]. *)
Definition zones : Operation :=
  PerformApiFetch "/zones" emptyInit None None.

(** The request it sends for [token]. *)
Definition zonesRequest : string * FetchInit :=
  ("https://api.cloudflare.com/client/v4/zones",
   {| fi_method := Some "GET";
      fi_headers := [("Authorization", "Bearer t0ken");
                     ("User-Agent", "wrangler/3.0.0")];
      fi_body := None;
      fi_signal := None |}).

(** The same call by a caller who sets the key headers itself. *)
Definition zonesWithKeyHeaders : Operation :=
  PerformApiFetch "/zones"
    (withRecord [("X-Auth-Key", "k3y"); ("X-Auth-Email", "me@example.com")])
    None None.

(** The same call by a caller who sets [Authorization] itself. *)
Definition zonesWithAuthorization : Operation :=
  PerformApiFetch "/zones"
    (withRecord [("Authorization", "Basic dXNlcjpwdw==")]) None None.

End Sample.

(** ** The request of an operation *)

Section Requests.

Variable wranglerVersion : string.

(** [queryParams ? `?${queryParams.toString()}` : ""]. *)
Definition queryString (queryParams : option URLSearchParams) : string :=
  match queryParams with
  | Some q => "?" ++ toString q
  | None => ""
  end.

(** [init.method ?? "GET"]. *)
Definition methodOf (init : RequestInit) : string :=
  match ri_method init with
  | Some m => m
  | None => "GET"
  end.

(** The operation gets past its own checks on the arguments: the resource
    of [performApiFetch] and [fetchInternal] starts with a slash. *)
Definition admissible (op : Operation) : bool :=
  match op with
  | PerformApiFetch resource _ _ _ => JsString.startsWith "/" resource
  | FetchInternal resource _ _ _ => JsString.startsWith "/" resource
  | _ => true
  end.

(** The first argument of [fetch], for the base URL [base]. *)
Definition requestUrl (base : string) (op : Operation) : string :=
  match op with
  | PerformApiFetch resource _ queryParams _ =>
      base ++ resource ++ queryString queryParams
  | FetchInternal resource _ queryParams _ =>
      base ++ resource ++ queryString queryParams
  | FetchKVGetValue accountId namespaceId key =>
      base ++ "/accounts/" ++ accountId ++ "/storage/kv/namespaces/"
        ++ namespaceId ++ "/values/" ++ key
  | FetchR2Objects resource _ => base ++ resource
  | FetchWorker resource _ => base ++ resource
  end.

(** The second argument of [fetch], for the credential [auth]. *)
Definition requestInit (op : Operation) (auth : ApiCredentials)
    : FetchInit :=
  match op with
  | PerformApiFetch _ init _ abortSignal
  | FetchInternal _ init _ abortSignal =>
      {| fi_method := Some (methodOf init);
         fi_headers := outgoingHeaders wranglerVersion op auth;
         fi_body := ri_body init;
         fi_signal := abortSignal |}
  | FetchKVGetValue _ _ _ =>
      {| fi_method := Some "GET";
         fi_headers := outgoingHeaders wranglerVersion op auth;
         fi_body := None;
         fi_signal := None |}
  | FetchR2Objects _ bodyInit | FetchWorker _ bodyInit =>
      withHeaders bodyInit (outgoingHeaders wranglerVersion op auth)
  end.

End Requests.

(** The names of a [Headers] instance are in lower case, as undici keeps
    them. *)
Definition lowerCased (h : Headers.t) : bool :=
  forallb (fun kv => String.eqb (fst kv) (Headers.toLowerCase (fst kv))) h.

(** The arguments of the log lines with a given label among some events. *)
Fixpoint logged (label : string) (evs : list Event) : list (list LogArg) :=
  match evs with
  | [] => []
  | Ev (logger_debugWithSanitization label' args) _ :: rest =>
      if String.eqb label' label then args :: logged label rest
      else logged label rest
  | Ev _ _ :: rest => logged label rest
  end.

(** The calls to [logger] among some events. *)
Fixpoint loggerCalls (evs : list Event) : list Call :=
  match evs with
  | [] => []
  | Ev (logger_debug args) _ :: rest =>
      logger_debug args :: loggerCalls rest
  | Ev (logger_debugWithSanitization label args) _ :: rest =>
      logger_debugWithSanitization label args :: loggerCalls rest
  | Ev _ _ :: rest => loggerCalls rest
  end.

(** The arguments of the calls to [console.error] among some events. *)
Fixpoint consoleErrors (evs : list Event) : list (list LogArg) :=
  match evs with
  | [] => []
  | Ev (console_error args) _ :: rest => args :: consoleErrors rest
  | Ev _ _ :: rest => consoleErrors rest
  end.

(** More environments and arguments for the examples. *)
Module Cases.

(** A user who is not logged in and declines to log in. *)
Definition loggedOut : Env :=
  {| env_login := inr false;
     env_apiToken := inl (Foreign "no token");
     env_baseUrl := "https://api.cloudflare.com/client/v4";
     env_formDataText := fun _ => "";
     env_formData := fun _ => inl (Foreign "TypeError");
     env_fetch := fun _ _ => inl (Foreign "unreachable") |}.

(** A user who is logged in, with no credential to be had. *)
Definition noToken : Env :=
  {| env_login := inr true;
     env_apiToken := inl (Foreign "no token");
     env_baseUrl := "https://api.cloudflare.com/client/v4";
     env_formDataText := fun _ => "";
     env_formData := fun _ => inl (Foreign "TypeError");
     env_fetch := fun _ _ => inl (Foreign "unreachable") |}.

(** A network that is down. *)
Definition offline : Env :=
  {| env_login := inr true;
     env_apiToken := inr Sample.token;
     env_baseUrl := "https://api.cloudflare.com/client/v4";
     env_formDataText := fun _ => "";
     env_formData := fun _ => inl (Foreign "TypeError");
     env_fetch := fun _ _ => inl (Foreign "ECONNREFUSED") |}.

Definition perform (op : Operation) : Async (Result Json.value) :=
  perform Sample.version Sample.stringifyInit Json.value Json.parseJSON op.

(** [fetchWorker("/script")]. *)
Definition script : Operation := FetchWorker "/script" emptyInit.

(** A PUT of a form with a caller's header and signal. *)
Definition upload : RequestInit :=
  {| ri_method := Some "PUT";
     ri_headers :=
       Some (HI_Array [("Accept", "text/plain"); ("accept", "a");
                       ("Accept", "application/json")]);
     ri_body := Some (Body_FormData Sample.form);
     ri_signal := Some 7 |}.

(** [fetchR2Objects("/r2/o")] by a caller whose [Headers] instance holds
    a user agent, and the request it sends for [Sample.token]. *)
Definition ownAgent : Operation :=
  FetchR2Objects "/r2/o"
    {| ri_method := None;
       ri_headers := Some (HI_Headers [("user-agent", "mine/1.0")]);
       ri_body := None;
       ri_signal := None |}.

Definition ownAgentRequest : string * FetchInit :=
  ("https://api.cloudflare.com/client/v4/r2/o",
   {| fi_method := None;
      fi_headers := [("user-agent", "mine/1.0");
                     ("Authorization", "Bearer t0ken");
                     ("User-Agent", "wrangler/3.0.0")];
      fi_body := None;
      fi_signal := None |}).

(** A caller's [Headers] instance that holds an authorization. *)
Definition ownHeaders : Headers.t :=
  [("accept", "*/*"); ("authorization", "Basic dXNlcjpwdw==")].

End Cases.

(** * Properties *)

(** ** Records of headers *)

Module JsObjectFacts.
Import JsObject.

Lemma has_get (k : string) (o : t) :
  has k o = match get k o with Some _ => true | None => false end.
Proof.
  induction o as [|[k' v'] o IH]; simpl; [reflexivity|].
  destruct (String.eqb k k'); [reflexivity | exact IH].
Qed.

Lemma get_set_same (k v : string) (o : t) : get k (set k v o) = Some v.
Proof.
  induction o as [|[k' v'] o IH]; simpl.
  - now rewrite String.eqb_refl.
  - destruct (String.eqb k k') eqn:E; simpl; rewrite E;
      [reflexivity | exact IH].
Qed.

Lemma get_set_other (k k' v : string) (o : t) :
  k <> k' -> get k (set k' v o) = get k o.
Proof.
  intros Hne. induction o as [|[k2 v2] o IH]; simpl.
  - destruct (String.eqb_spec k k'); [contradiction | reflexivity].
  - destruct (String.eqb_spec k' k2) as [->|Hk]; simpl.
    + destruct (String.eqb_spec k k2); [contradiction | reflexivity].
    + destruct (String.eqb k k2); [reflexivity | exact IH].
Qed.

Lemma has_set_same (k v : string) (o : t) : has k (set k v o) = true.
Proof. now rewrite has_get, get_set_same. Qed.

Lemma has_set_other (k k' v : string) (o : t) :
  k <> k' -> has k (set k' v o) = has k o.
Proof. intros Hne. now rewrite !has_get, get_set_other. Qed.

Lemma has_delete_same (k : string) (o : t) : has k (delete k o) = false.
Proof.
  induction o as [|[k' v'] o IH]; simpl; [reflexivity|].
  destruct (String.eqb k k') eqn:E; simpl; [exact IH | now rewrite E].
Qed.

Lemma has_set (k k' v : string) (o : t) :
  has k (set k' v o) = (String.eqb k k' || has k o).
Proof.
  destruct (String.eqb_spec k k') as [->|Hne].
  - apply has_set_same.
  - now apply has_set_other.
Qed.

Lemma has_existsb (k : string) (o : t) :
  has k o = existsb (fun kv => String.eqb k (fst kv)) o.
Proof.
  induction o as [|[k' v'] o IH]; simpl; [reflexivity|].
  now destruct (String.eqb k k').
Qed.

Lemma has_fold (k : string) (l : list (string * string)) :
  forall o,
    has k (fold_left (fun o kv => set (fst kv) (snd kv) o) l o)
    = (has k o || existsb (fun kv => String.eqb k (fst kv)) l).
Proof.
  induction l as [|[k' v'] l IH]; intros o; simpl.
  - now rewrite orb_false_r.
  - rewrite IH, has_set.
    now destruct (String.eqb k k'), (has k o).
Qed.

(** A record built from entries has the names of the entries. *)
Lemma has_fromEntries (k : string) (l : list (string * string)) :
  has k (fromEntries l) = existsb (fun kv => String.eqb k (fst kv)) l.
Proof. unfold fromEntries. now rewrite has_fold. Qed.

Lemma existsb_insertIndexed (f : string * string -> bool) (n : N)
    (kv : string * string) (l : list (N * (string * string))) :
  existsb f (map snd (insertIndexed n kv l))
  = (f kv || existsb f (map snd l)).
Proof.
  induction l as [|[m kv'] l IH]; simpl; [reflexivity|].
  destruct (n <? m)%N; simpl; [reflexivity|].
  rewrite IH. now destruct (f kv), (f kv').
Qed.

Lemma existsb_entries (f : string * string -> bool) (o : t) :
  existsb f (entries o) = existsb f o.
Proof.
  unfold entries. rewrite existsb_app.
  induction o as [|kv o IH]; simpl; [reflexivity|].
  destruct (arrayIndex (fst kv)); simpl.
  - rewrite existsb_insertIndexed, <- IH.
    now destruct (f kv), (existsb f (map snd (indexed o))).
  - rewrite <- IH.
    now destruct (f kv), (existsb f (map snd (indexed o))).
Qed.

(** A copy has the names of the original. *)
Lemma has_spread (k : string) (o : t) : has k (spread o) = has k o.
Proof.
  unfold spread. now rewrite has_fromEntries, existsb_entries, has_existsb.
Qed.

End JsObjectFacts.

(** X22. The clone of the caller's headers has a name exactly when the
    caller's headers have it, whichever of the three shapes they come in. *)
Lemma cloneHeaders_has (k : string) (headers : option HeadersInit) :
  JsObject.has k (cloneHeaders headers)
  = match headers with
    | Some (HI_Headers entries) | Some (HI_Array entries)
    | Some (HI_Record entries) =>
        existsb (fun kv => String.eqb k (fst kv)) entries
    | None => false
    end.
Proof.
  destruct headers as [[h|pairs|o]|]; cbn [cloneHeaders].
  - apply JsObjectFacts.has_fromEntries.
  - apply JsObjectFacts.has_fromEntries.
  - rewrite JsObjectFacts.has_spread. apply JsObjectFacts.has_existsb.
  - reflexivity.
Qed.

(** ** Running trees *)

Lemma exec_bind {A B : Type} (w : World) (m : Async A) (f : A -> Async B) :
  forall hist,
    exec w hist (bind m f) =
      match fst (exec w hist m) with
      | inr a =>
          let out := exec w (hist ++ snd (exec w hist m))%list (f a) in
          (fst out, (snd (exec w hist m) ++ snd out)%list)
      | inl e => (inl e, snd (exec w hist m))
      end.
Proof.
  induction m as [a|e|c k IH]; intros hist; simpl.
  - rewrite app_nil_r. now destruct (exec w hist (f a)).
  - reflexivity.
  - destruct (w hist c) as [e|x]; [reflexivity|]. simpl.
    rewrite IH. destruct (fst (exec w (hist ++ [Ev c (inr x)]) (k x))); simpl.
    + reflexivity.
    + now rewrite <- app_assoc.
Qed.

(** Two worlds that answer alike run a tree alike. *)
Lemma exec_ext {A : Type} (w w' : World) (p : Async A) :
  forall hist hist',
    (forall h c, w (hist ++ h)%list c = w' (hist' ++ h)%list c) ->
    exec w hist p = exec w' hist' p.
Proof.
  induction p as [a|e|c k IH]; intros hist hist' Hw; simpl;
    try reflexivity.
  pose proof (Hw [] c) as H0. rewrite !app_nil_r in H0. rewrite <- H0.
  destruct (w hist c) as [e|x]; [reflexivity|].
  rewrite (IH x (hist ++ [Ev c (inr x)])%list (hist' ++ [Ev c (inr x)])%list).
  - reflexivity.
  - intros h c'. rewrite <- !app_assoc. apply Hw.
Qed.

(** A tree keeps no memory: run after [hist], it does what it does from
    the start in the world as [hist] left it. *)
Lemma exec_after {A : Type} (w : World) (hist : list Event) (p : Async A) :
  exec w hist p = exec (after hist w) [] p.
Proof. apply exec_ext. intros h c. reflexivity. Qed.

(** In an environment the history plays no part. *)
Lemma exec_world {A : Type} (env : Env) (p : Async A) :
  forall hist, exec (world env) hist p = interp env p.
Proof.
  induction p as [a|e|c k IH]; intros hist; simpl; try reflexivity.
  unfold world. destruct (answer env c) as [e|x]; [reflexivity|].
  now rewrite <- (IH x (hist ++ [Ev c (inr x)])%list).
Qed.

Lemma requests_app (evs evs' : list Event) :
  requests (evs ++ evs') = (requests evs ++ requests evs')%list.
Proof.
  induction evs as [|[c r] evs IH]; simpl; [reflexivity|].
  destruct c; simpl; now rewrite ?IH.
Qed.

(** ** The bound on requests *)

Lemma fetchBound_le {A : Type} (n m : nat) (p : Async A) :
  fetchBound n p -> n <= m -> fetchBound m p.
Proof.
  intros H. revert m. induction H as [n a|n e|n url init k _ IH|n c k Hc _ IH];
    intros m Hle.
  - constructor.
  - constructor.
  - destruct m as [|m]; [lia|]. constructor. intros r. apply IH. lia.
  - apply fetchBound_other; [exact Hc|]. intros x. now apply IH.
Qed.

Lemma fetchBound_bind {A B : Type} (n m : nat) (p : Async A)
    (f : A -> Async B) :
  fetchBound n p -> (forall a, fetchBound m (f a)) ->
  fetchBound (n + m) (bind p f).
Proof.
  intros H Hf. induction H as [n a|n e|n url init k _ IH|n c k Hc _ IH];
    simpl.
  - apply fetchBound_le with m; [apply Hf | lia].
  - constructor.
  - constructor. exact IH.
  - apply fetchBound_other; [exact Hc | exact IH].
Qed.

Lemma fetchBound_exec {A : Type} (n : nat) (p : Async A) :
  fetchBound n p ->
  forall w hist, length (requests (snd (exec w hist p))) <= n.
Proof.
  induction 1 as [n a|n e|n url init k _ IH|n c k Hc _ IH];
    intros w hist; simpl; try lia.
  - destruct (w hist (fetch url init)) as [e|x]; simpl; [lia|].
    apply le_n_S, IH.
  - destruct (w hist c) as [e|x]; simpl.
    + destruct c; simpl; try lia; discriminate.
    + specialize (IH x w (hist ++ [Ev c (inr x)])%list).
      destruct c; simpl; try discriminate; exact IH.
Qed.

Ltac bound_step :=
  lazymatch goal with
  | |- fetchBound _ (Return _) => apply fetchBound_Return
  | |- fetchBound _ (Throw _) => apply fetchBound_Throw
  | |- fetchBound _ (Await (fetch _ _) _) => apply fetchBound_fetch; intros ?
  | |- fetchBound _ (Await _ _) =>
      apply fetchBound_other; [reflexivity | intros ?]
  | |- fetchBound _ (call _) => unfold call
  | |- fetchBound _ (bind (if ?b then _ else _) _) => destruct b
  | |- fetchBound _ (bind (match ?x with _ => _ end) _) => destruct x
  | |- fetchBound _ (bind _ _) => progress cbn [bind call]
  | |- fetchBound _ (if ?b then _ else _) => destruct b
  | |- fetchBound _ (match ?x with _ => _ end) => destruct x
  end.

Lemma requireLoggedIn_bound : fetchBound 0 requireLoggedIn.
Proof. unfold requireLoggedIn. cbn [bind call]. repeat bound_step. Qed.

Lemma performApiFetch_bound ver sI resource init queryParams abortSignal :
  fetchBound 1 (performApiFetch ver sI resource init queryParams abortSignal).
Proof.
  unfold performApiFetch, assert, requireLoggedIn. 
  repeat bound_step.
Qed.

Lemma perform_bound ver sI RT parseJSON op :
  fetchBound 1 (perform ver sI RT parseJSON op).
Proof.
  destruct op; unfold perform.
  - apply (fetchBound_bind 1 0); [apply performApiFetch_bound|].
  intros; constructor.
  - apply (fetchBound_bind 1 0); [|intros; constructor].
    unfold fetchInternal.
    apply (fetchBound_bind 1 0); [apply performApiFetch_bound|].
    intros response. repeat bound_step.
  - apply (fetchBound_bind 1 0); [|intros; constructor].
    unfold fetchKVGetValue, requireLoggedIn. repeat bound_step.
  - apply (fetchBound_bind 1 0); [|intros; constructor].
    unfold fetchR2Objects, requireLoggedIn. repeat bound_step.
  - apply (fetchBound_bind 1 0); [|intros; constructor].
    unfold fetchWorker, requireLoggedIn. repeat bound_step.
Qed.

(** C4. Every call of an exported operation ([performApiFetch],
    [fetchInternal], [fetchKVGetValue], [fetchR2Objects], [fetchWorker])
    issues at most one [fetch], whatever the environment answers and
    whatever calls came before: no request is retried or issued again.
    And no state carries over between calls: run after any history, the
    operation does what it does from the start in the world as that history
    left it. *)
Theorem single_fetch_per_call ver sI RT parseJSON (w : World)
    (hist : list Event) (op : Operation) :
  length (requests (snd (exec w hist (perform ver sI RT parseJSON op)))) <= 1
  /\ exec w hist (perform ver sI RT parseJSON op)
     = exec (after hist w) [] (perform ver sI RT parseJSON op).
Proof.
  split.
  - apply fetchBound_exec, perform_bound.
  - apply exec_after.
Qed.


(** ** Case analysis on a run *)

Ltac exec_step :=
  cbn [interp bind call answer requireLoggedIn assert fst snd
       responses requests headerLogs negb Answer].

Ltac interp_case :=
  match goal with
  | |- context [interp _ (if ?b then _ else _)] => destruct b eqn:?
  | |- context [interp _ (match ?x with _ => _ end)] => destruct x eqn:?
  | |- context [bind (if ?b then _ else _) _] => destruct b eqn:?
  | |- context [bind (match ?x with _ => _ end) _] => destruct x eqn:?
  | |- context [match env_login ?e with _ => _ end] =>
      destruct (env_login e) as [?|[|]] eqn:?
  | |- context [match env_apiToken ?e with _ => _ end] =>
      destruct (env_apiToken e) eqn:?
  | |- context [match env_fetch ?e ?u ?i with _ => _ end] =>
      destruct (env_fetch e u i) eqn:?
  | |- context [match env_formData ?e ?r with _ => _ end] =>
      destruct (env_formData e r) eqn:?
  end.

Ltac interp_cases :=
  unfold assert, requireLoggedIn; exec_step; repeat (interp_case; exec_step).

(** ** The request an operation sends *)

Lemma sent_headers ver sI RT parseJSON env op auth req :
  env_apiToken env = inr auth ->
  In req (requests (calls env (perform ver sI RT parseJSON op))) ->
  fi_headers (snd req) = outgoingHeaders ver op auth.
Proof.
  intros Hauth. revert req.
  destruct op; unfold calls, perform, fetchInternal, performApiFetch,
    fetchKVGetValue, fetchR2Objects, fetchWorker.
  all: interp_cases.
  all: intros req Hin; simpl in Hin; try contradiction; try discriminate.
  all: destruct Hin as [<-|[]];
  cbn [snd fi_headers outgoingHeaders callerHeaders withHeaders].
  all: congruence.
Qed.

(** ** Authentication headers *)

Lemma get_addUserAgent ver k h :
  k <> "User-Agent" ->
  JsObject.get k (addUserAgent ver h) = JsObject.get k h.
Proof. intros Hk. now apply JsObjectFacts.get_set_other. Qed.

Lemma addAuthorization_sentAs h auth :
  tokenAuth h = false ->
  sentAs auth (addAuthorizationHeaderIfUnspecified h auth).
Proof.
  unfold tokenAuth, sentAs, addAuthorizationHeaderIfUnspecified.
  intros ->. cbn [negb]. destruct auth as [apiToken|authKey authEmail].
  - apply JsObjectFacts.get_set_same.
  - split.
    + rewrite JsObjectFacts.get_set_other by discriminate.
      apply JsObjectFacts.get_set_same.
    + apply JsObjectFacts.get_set_same.
Qed.

Lemma outgoing_sentAs ver op auth :
  tokenAuth (callerHeaders op) = false ->
  sentAs auth (outgoingHeaders ver op auth).
Proof.
  intros H.
  assert (Hs : sentAs auth
                 (addAuthorizationHeaderIfUnspecified (callerHeaders op) auth))
    by now apply addAuthorization_sentAs.
  destruct op; cbn [outgoingHeaders]; try exact Hs.
  all: destruct auth; cbn [sentAs] in *;
    rewrite ?get_addUserAgent by discriminate; exact Hs.
Qed.

(** *** Header names without regard to case *)

Lemma carries_set (name k v : string) (o : JsObject.t) :
  carries name (JsObject.set k v o) = (sameName k name || carries name o).
Proof.
  unfold carries. induction o as [|[k' v'] o IH]; simpl.
  - reflexivity.
  - destruct (String.eqb_spec k k') as [->|Hne]; simpl.
    + now destruct (sameName k' name).
    + rewrite IH. now destruct (sameName k name), (sameName k' name).
Qed.

(** A record that has a name carries it. *)
Lemma has_carries (k : string) (o : JsObject.t) :
  JsObject.has k o = true -> carries k o = true.
Proof.
  unfold carries. induction o as [|[k' v'] o IH]; simpl; [discriminate|].
  destruct (String.eqb_spec k k') as [->|Hne].
  - intros _. unfold sameName. now rewrite String.eqb_refl.
  - intros H. rewrite (IH H). apply orb_true_r.
Qed.

(** The names the outgoing headers carry: those the transport writes and
    those of the caller. *)
Lemma outgoing_carries ver op auth name :
  tokenForm (callerHeaders op) = false ->
  carries name (outgoingHeaders ver op auth)
  = (match op with
     | FetchKVGetValue _ _ _ => false
     | _ => sameName "User-Agent" name
     end
     || match auth with
        | ApiToken _ => sameName "Authorization" name
        | AuthKeyEmail _ _ =>
            sameName "X-Auth-Email" name || sameName "X-Auth-Key" name
        end
     || carries name (callerHeaders op)).
Proof.
  intros Hnone.
  assert (Hhas : JsObject.has "Authorization" (callerHeaders op) = false).
  { destruct (JsObject.has "Authorization" (callerHeaders op)) eqn:E;
      [|reflexivity].
    apply has_carries in E. unfold tokenForm in Hnone. congruence. }
  destruct op; cbn [outgoingHeaders];
    unfold addUserAgent, addAuthorizationHeaderIfUnspecified;
    rewrite ?Hhas; cbn [callerHeaders JsObject.has JsObject.empty negb];
    destruct auth; rewrite !carries_set; cbn [carries existsb JsObject.empty];
    rewrite ?orb_false_r, ?orb_assoc; reflexivity.
Qed.

(** C1, as amended. For every request built by the transport
    ([performApiFetch], [fetchInternal], [fetchKVGetValue],
    [fetchR2Objects], [fetchWorker]), when the caller supplied no
    [Authorization] header and, if the credential is a bearer token, did
    not supply both [X-Auth-Key] and [X-Auth-Email], exactly one of the two
    authentication forms is in the outgoing headers, never both and never
    neither: the [Authorization] header when the credential has an
    [apiToken], the [X-Auth-Key]/[X-Auth-Email] pair otherwise. Header
    names count without regard to case, in what the caller supplied and in
    what goes out. *)
Theorem one_auth_form_per_request ver sI RT parseJSON env op auth req :
  env_apiToken env = inr auth ->
  tokenForm (callerHeaders op) = false ->
  (hasApiToken auth = true -> keyForm (callerHeaders op) = false) ->
  In req (requests (calls env (perform ver sI RT parseJSON op))) ->
  exactlyOneForm (fi_headers (snd req)) = true
  /\ tokenForm (fi_headers (snd req)) = hasApiToken auth
  /\ keyForm (fi_headers (snd req)) = negb (hasApiToken auth).
Proof.
  intros Hauth Htoken Hkey Hin.
  rewrite (sent_headers _ _ _ _ _ _ _ _ Hauth Hin).
  unfold exactlyOneForm, tokenForm, keyForm in *.
  rewrite !(outgoing_carries ver op auth) by exact Htoken.
  rewrite Htoken.
  destruct (carries "X-Auth-Key" (callerHeaders op)),
    (carries "X-Auth-Email" (callerHeaders op)), auth, op;
    cbn [hasApiToken] in *;
    try (specialize (Hkey eq_refl); discriminate Hkey);
    repeat split; reflexivity.
Qed.

Lemma one_auth_form_per_request_witness :
  env_apiToken (Sample.env Sample.token (Sample.okJson "{}"))
    = inr Sample.token
  /\ tokenForm (callerHeaders Sample.zones) = false
  /\ keyForm (callerHeaders Sample.zones) = false
  /\ In Sample.zonesRequest
       (Sample.sent (Sample.env Sample.token (Sample.okJson "{}"))
          Sample.zones)
  /\ exactlyOneForm (fi_headers (snd Sample.zonesRequest)) = true
  /\ tokenForm (fi_headers (snd Sample.zonesRequest)) = true
  /\ keyForm (fi_headers (snd Sample.zonesRequest)) = false.
Proof.
  assert (Hin : In Sample.zonesRequest
                  (Sample.sent (Sample.env Sample.token (Sample.okJson "{}"))
                     Sample.zones)) by (left; reflexivity).
  split; [reflexivity|]. split; [reflexivity|]. split; [reflexivity|].
  split; [exact Hin|].
  exact (one_auth_form_per_request Sample.version Sample.stringifyInit
           Json.value Json.parseJSON
           (Sample.env Sample.token (Sample.okJson "{}"))
           Sample.zones Sample.token Sample.zonesRequest
           eq_refl eq_refl (fun _ => eq_refl) Hin).
Defined.

(** C1 as stated fails: a caller who supplies [X-Auth-Key] and
    [X-Auth-Email] but no [Authorization], with a token credential, gets a
    request that carries both forms. *)
Lemma both_auth_forms_sent :
  tokenForm (callerHeaders Sample.zonesWithKeyHeaders) = false
  /\ map (fun req => (tokenForm (fi_headers (snd req)),
                      keyForm (fi_headers (snd req)),
                      exactlyOneForm (fi_headers (snd req))))
       (Sample.sent (Sample.env Sample.token (Sample.okJson "{}"))
          Sample.zonesWithKeyHeaders)
     = [(true, true, false)].
Proof. split; reflexivity. Qed.

(** C2, as amended. When the caller supplied no [Authorization] header, the
    credential form determines the headers sent: for a bearer token the
    header [Authorization] is the string [Bearer ] followed by the token;
    for a key and email the two headers [X-Auth-Key] and [X-Auth-Email]
    are the API key and the account email. *)
Theorem credential_headers ver sI RT parseJSON env op auth req :
  env_apiToken env = inr auth ->
  tokenAuth (callerHeaders op) = false ->
  In req (requests (calls env (perform ver sI RT parseJSON op))) ->
  match auth with
  | ApiToken apiToken =>
      JsObject.get "Authorization" (fi_headers (snd req))
      = Some ("Bearer " ++ apiToken)
  | AuthKeyEmail authKey authEmail =>
      JsObject.get "X-Auth-Key" (fi_headers (snd req)) = Some authKey
      /\ JsObject.get "X-Auth-Email" (fi_headers (snd req)) = Some authEmail
  end.
Proof.
  intros Hauth Htoken Hin.
  rewrite (sent_headers _ _ _ _ _ _ _ _ Hauth Hin).
  exact (outgoing_sentAs ver op auth Htoken).
Qed.

Lemma credential_headers_witness :
  env_apiToken (Sample.env Sample.token (Sample.okJson "{}"))
    = inr Sample.token
  /\ tokenAuth (callerHeaders Sample.zones) = false
  /\ In Sample.zonesRequest
       (Sample.sent (Sample.env Sample.token (Sample.okJson "{}"))
          Sample.zones)
  /\ JsObject.get "Authorization" (fi_headers (snd Sample.zonesRequest))
     = Some "Bearer t0ken".
Proof.
  assert (Hin : In Sample.zonesRequest
                  (Sample.sent (Sample.env Sample.token (Sample.okJson "{}"))
                     Sample.zones)) by (left; reflexivity).
  split; [reflexivity|]. split; [reflexivity|]. split; [exact Hin|].
  exact (credential_headers Sample.version Sample.stringifyInit
           Json.value Json.parseJSON
           (Sample.env Sample.token (Sample.okJson "{}"))
           Sample.zones Sample.token Sample.zonesRequest
           eq_refl eq_refl Hin).
Defined.

(** C2 as stated fails: when the caller supplies [Authorization], the
    transport sends the caller's value and not the bearer token. *)
Lemma caller_authorization_kept :
  map (fun req => JsObject.get "Authorization" (fi_headers (snd req)))
    (Sample.sent (Sample.env Sample.token (Sample.okJson "{}"))
       Sample.zonesWithAuthorization)
  = [Some "Basic dXNlcjpwdw=="]
  /\ Forall (fun req => ~ sentAs Sample.token (fi_headers (snd req)))
       (Sample.sent (Sample.env Sample.token (Sample.okJson "{}"))
          Sample.zonesWithAuthorization)
  /\ Sample.sent (Sample.env Sample.token (Sample.okJson "{}"))
       Sample.zonesWithAuthorization <> [].
Proof.
  split; [reflexivity|]. split.
  - repeat constructor. cbn. discriminate.
  - discriminate.
Qed.

(** ** [fetchInternal] *)

(** The guard of the special case: an empty text with status 204 or 205. *)
Lemma emptyReply_spec (response : Response.t) :
  JsString.isEmpty (Response.text response)
    && ((Response.status response =? 204)%nat
        || (Response.status response =? 205)%nat) = true
  <-> Response.text response = ""
      /\ (Response.status response = 204 \/ Response.status response = 205).
Proof.
  rewrite andb_true_iff, orb_true_iff, !Nat.eqb_eq.
  destruct (Response.text response); simpl; intuition congruence.
Qed.

(** What [fetchInternal] does with the response its request resolved
    with. *)
Lemma fetchInternal_run ver sI RT parseJSON env resource init queryParams
    abortSignal response :
  responses (calls env (fetchInternal ver sI RT parseJSON resource init
                          queryParams abortSignal)) = [response] ->
  run env (fetchInternal ver sI RT parseJSON resource init queryParams
             abortSignal)
  = if JsString.isEmpty (Response.text response)
       && ((Response.status response =? 204)%nat
           || (Response.status response =? 205)%nat)
    then parseJSON emptyBody
    else
      match parseJSON (Response.text response) with
      | inr value => inr value
      | inl _ =>
          inl (APIError "Received a malformed response from the API"
                 [truncate (Response.text response) 100;
                  match ri_method init with
                  | Some m => m
                  | None => "GET"
                  end ++ " " ++ resource ++ " -> "
                    ++ JsString.ofNumber (Response.status response) ++ " "
                    ++ Response.statusText response]
                 (Response.status response))
      end.
Proof.
  unfold run, calls, fetchInternal, performApiFetch.
  interp_cases.
  all: try discriminate.
  all: intros [= <-].
  all: repeat match goal with
         | H : ?x = _ |- context [if ?x then _ else _] => rewrite H
         | H : ?x = _ |- context [match ?x with _ => _ end] => rewrite H
         end.
  all: reflexivity.
Qed.

(** C3, as amended. [fetchInternal] returns the body of the response parsed
    as JSON, as it is: it neither checks for nor adds the fields [result],
    [success], [errors] and [messages], so the value is the envelope of the
    API when the server sent one. For a response with an empty body and
    status 204 or 205 it returns the parse of the envelope written in the
    source, with the four fields, rather than failing to parse the empty
    body. *)
Theorem fetchInternal_result ver sI RT parseJSON env resource init
    queryParams abortSignal response :
  responses (calls env (fetchInternal ver sI RT parseJSON resource init
                          queryParams abortSignal)) = [response] ->
  (Response.text response = ""
   /\ (Response.status response = 204 \/ Response.status response = 205) ->
   run env (fetchInternal ver sI RT parseJSON resource init queryParams
              abortSignal)
   = parseJSON emptyBody)
  /\ (~ (Response.text response = ""
         /\ (Response.status response = 204
             \/ Response.status response = 205)) ->
      forall value, parseJSON (Response.text response) = inr value ->
      run env (fetchInternal ver sI RT parseJSON resource init queryParams
                 abortSignal)
      = inr value)
  /\ Json.parseJSON emptyBody
     = inr (Json.Object [("result", Json.Object []);
                         ("success", Json.Bool true);
                         ("errors", Json.Array []);
                         ("messages", Json.Array [])]).
Proof.
  intros Hresp. rewrite (fetchInternal_run _ _ _ _ _ _ _ _ _ _ Hresp).
  split; [|split].
  - intros H. apply emptyReply_spec in H. now rewrite H.
  - intros H value Hparse.
    destruct (JsString.isEmpty (Response.text response)
              && ((Response.status response =? 204)%nat
                  || (Response.status response =? 205)%nat)) eqn:E.
    + apply emptyReply_spec in E. contradiction.
    + now rewrite Hparse.
  - reflexivity.
Qed.


Lemma fetchInternal_result_witness :
  responses (calls (Sample.env Sample.token Sample.noContent)
               Sample.fetchZones) = [Sample.noContent]
  /\ Response.text Sample.noContent = ""
  /\ Response.status Sample.noContent = 204
  /\ run (Sample.env Sample.token Sample.noContent) Sample.fetchZones
     = inr (Json.Object [("result", Json.Object []);
                         ("success", Json.Bool true);
                         ("errors", Json.Array []);
                         ("messages", Json.Array [])]).
Proof.
  split; [reflexivity|]. split; [reflexivity|]. split; [reflexivity|].
  destruct (fetchInternal_result Sample.version Sample.stringifyInit
              Json.value Json.parseJSON
              (Sample.env Sample.token Sample.noContent)
              "/zones" emptyInit None None Sample.noContent eq_refl)
    as [Hempty [_ Henvelope]].
  rewrite <- Henvelope. apply Hempty.
  split; [reflexivity | left; reflexivity].
Defined.

(** C3 as stated fails: a response whose body is JSON but not an envelope
    is returned as it is, without the four fields. *)
Lemma fetchInternal_returns_any_json :
  responses (calls (Sample.env Sample.token (Sample.okJson "[]"))
               Sample.fetchZones) = [Sample.okJson "[]"]
  /\ run (Sample.env Sample.token (Sample.okJson "[]")) Sample.fetchZones
     = inr (Json.Array [])
  /\ Json.isEnvelope (Json.Array []) = false.
Proof. repeat split. Qed.

(** ** [truncate] *)

Lemma substring_prefix_length (n : nat) (s : string) :
  String.length (substring 0 n s) = Nat.min n (String.length s).
Proof.
  revert s. induction n as [|n IH]; intros [|c s]; simpl; try reflexivity.
  now rewrite IH.
Qed.

Lemma substring_prefix (n : nat) (s : string) :
  prefix (substring 0 n s) s = true.
Proof.
  revert s. induction n as [|n IH]; intros [|c s]; simpl; try reflexivity.
  destruct (ascii_dec c c); [apply IH | contradiction].
Qed.

Lemma truncate_short (text : string) (maxLength : nat) :
  String.length text <= maxLength -> truncate text maxLength = text.
Proof.
  intros H. unfold truncate.
  destruct (Nat.leb_spec (String.length text) maxLength); [reflexivity|lia].
Qed.

Lemma truncate_long (text : string) (maxLength : nat) :
  maxLength < String.length text ->
  truncate text maxLength
  = substring 0 maxLength text ++ "... (length = "
      ++ JsString.ofNumber (String.length text) ++ ")".
Proof.
  intros H. unfold truncate.
  destruct (Nat.leb_spec (String.length text) maxLength); [lia|reflexivity].
Qed.

(** C9. For a response whose text does not parse as JSON, and which is not
    the empty 204 or 205 reply, [fetchInternal] throws an [APIError] whose
    status is the HTTP status of the response and whose first note is the
    text cut to its first 100 code units: a text of length at most 100 as it
    is, a longer one as its prefix of length 100 followed by
    [... (length = N)], where N is the length of the whole text. *)
Theorem malformed_response_error ver sI RT parseJSON env resource init
    queryParams abortSignal response :
  responses (calls env (fetchInternal ver sI RT parseJSON resource init
                          queryParams abortSignal)) = [response] ->
  ~ (Response.text response = ""
     /\ (Response.status response = 204
         \/ Response.status response = 205)) ->
  (exists err, parseJSON (Response.text response) = inl err) ->
  let jsonText := Response.text response in
  (exists note,
     run env (fetchInternal ver sI RT parseJSON resource init queryParams
                abortSignal)
     = inl (APIError "Received a malformed response from the API"
              [truncate jsonText 100; note] (Response.status response)))
  /\ (String.length jsonText <= 100 -> truncate jsonText 100 = jsonText)
  /\ (100 < String.length jsonText ->
      truncate jsonText 100
      = substring 0 100 jsonText ++ "... (length = "
          ++ JsString.ofNumber (String.length jsonText) ++ ")"
      /\ String.length (substring 0 100 jsonText) = 100
      /\ prefix (substring 0 100 jsonText) jsonText = true).
Proof.
  intros Hresp Hnot [err Herr] jsonText. split; [|split].
  - rewrite (fetchInternal_run _ _ _ _ _ _ _ _ _ _ Hresp).
    destruct (JsString.isEmpty (Response.text response)
              && ((Response.status response =? 204)%nat
                  || (Response.status response =? 205)%nat)) eqn:E.
    + apply emptyReply_spec in E. contradiction.
    + rewrite Herr. eexists. reflexivity.
  - apply truncate_short.
  - intros Hlong. split; [now apply truncate_long|]. split.
    + rewrite substring_prefix_length. lia.
    + apply substring_prefix.
Qed.

Lemma malformed_response_error_witness :
  responses (calls (Sample.env Sample.token Sample.badGateway)
               Sample.fetchZones) = [Sample.badGateway]
  /\ ~ (Response.text Sample.badGateway = ""
        /\ (Response.status Sample.badGateway = 204
            \/ Response.status Sample.badGateway = 205))
  /\ Json.parseJSON (Response.text Sample.badGateway)
     = inl (Foreign "ParseError")
  /\ exists note,
       run (Sample.env Sample.token Sample.badGateway) Sample.fetchZones
       = inl (APIError "Received a malformed response from the API"
                [truncate "<html>502 Bad Gateway</html>" 100; note] 502).
Proof.
  assert (Hnot : ~ (Response.text Sample.badGateway = ""
                    /\ (Response.status Sample.badGateway = 204
                        \/ Response.status Sample.badGateway = 205)))
    by (intros [H _]; discriminate H).
  split; [reflexivity|]. split; [exact Hnot|]. split; [reflexivity|].
  exact (proj1 (malformed_response_error Sample.version Sample.stringifyInit
                  Json.value Json.parseJSON
                  (Sample.env Sample.token Sample.badGateway)
                  "/zones" emptyInit None None Sample.badGateway
                  eq_refl Hnot
                  (ex_intro _ (Foreign "ParseError") eq_refl))).
Defined.

(** ** The raw fetches *)

Lemma ok_spec (response : Response.t) :
  Response.ok response = true <-> 200 <= Response.status response <= 299.
Proof.
  unfold Response.ok. rewrite andb_true_iff, !Nat.leb_le. reflexivity.
Qed.

Lemma hasBody_spec (response : Response.t) :
  Response.hasBody response = true <-> Response.body response <> None.
Proof.
  unfold Response.hasBody. destruct (Response.body response); split;
    congruence.
Qed.

(** C5. [fetchKVGetValue] returns the body of the response as raw bytes,
    with no JSON parsing, whenever the status is ok (200 to 299); for every
    other response it throws an [Error] that names the URL requested, the
    status code and the status text. *)
Theorem fetchKVGetValue_outcome env accountId namespaceId key response :
  responses (calls env (fetchKVGetValue accountId namespaceId key))
  = [response] ->
  let resource := env_baseUrl env ++ "/accounts/" ++ accountId
                    ++ "/storage/kv/namespaces/" ++ namespaceId
                    ++ "/values/" ++ key in
  (200 <= Response.status response <= 299 ->
   run env (fetchKVGetValue accountId namespaceId key)
   = inr (Response.arrayBuffer response))
  /\ (~ 200 <= Response.status response <= 299 ->
      run env (fetchKVGetValue accountId namespaceId key)
      = inl (Error ("Failed to fetch " ++ resource ++ " - "
                      ++ JsString.ofNumber (Response.status response) ++ ": "
                      ++ Response.statusText response ++ ");")))
  /\ map fst (requests (calls env (fetchKVGetValue accountId namespaceId key)))
     = [resource].
Proof.
  unfold run, calls, fetchKVGetValue. interp_cases.
  all: try discriminate.
  all: intros [= <-]; cbn [map fst]; split; [|split; [|reflexivity]].
  all: rewrite <- ok_spec; intros Hok; try reflexivity; congruence.
Qed.

Lemma fetchKVGetValue_outcome_witness :
  responses (calls (Sample.env Sample.token (Sample.okJson "v4lue"))
               (fetchKVGetValue "acc" "ns" "k%20ey"))
  = [Sample.okJson "v4lue"]
  /\ 200 <= Response.status (Sample.okJson "v4lue") <= 299
  /\ run (Sample.env Sample.token (Sample.okJson "v4lue"))
       (fetchKVGetValue "acc" "ns" "k%20ey")
     = inr "v4lue".
Proof.
  assert (Hok : 200 <= Response.status (Sample.okJson "v4lue") <= 299)
    by (cbn; lia).
  split; [reflexivity|]. split; [exact Hok|].
  exact (proj1 (fetchKVGetValue_outcome
                  (Sample.env Sample.token (Sample.okJson "v4lue"))
                  "acc" "ns" "k%20ey" (Sample.okJson "v4lue") eq_refl) Hok).
Defined.

(** C6. [fetchR2Objects] has three outcomes: a response that is ok and has
    a body is returned as it is, unparsed; otherwise a response with status
    404 gives [null]; every other response, an ok one without a body
    included, makes it throw an [Error] that names the resource, the status
    code and the status text. *)
Theorem fetchR2Objects_outcome ver env resource bodyInit response :
  responses (calls env (fetchR2Objects ver resource bodyInit)) = [response] ->
  let isOk := 200 <= Response.status response <= 299 in
  let present := Response.body response <> None in
  (isOk /\ present ->
   run env (fetchR2Objects ver resource bodyInit) = inr (Some response))
  /\ (~ (isOk /\ present) -> Response.status response = 404 ->
      run env (fetchR2Objects ver resource bodyInit) = inr None)
  /\ (~ (isOk /\ present) -> Response.status response <> 404 ->
      run env (fetchR2Objects ver resource bodyInit)
      = inl (Error ("Failed to fetch " ++ resource ++ " - "
                      ++ JsString.ofNumber (Response.status response) ++ ": "
                      ++ Response.statusText response ++ ");"))).
Proof.
  unfold run, calls, fetchR2Objects. interp_cases.
  all: try discriminate.
  all: intros [= <-]; cbv zeta; rewrite <- ok_spec, <- hasBody_spec.
  all: repeat match goal with
         | H : (_ && _)%bool = true |- _ => apply andb_true_iff in H
         | H : (_ && _)%bool = false |- _ =>
             apply andb_false_iff in H
         | H : (_ =? _)%nat = true |- _ => apply Nat.eqb_eq in H
         | H : (_ =? _)%nat = false |- _ => apply Nat.eqb_neq in H
         end.
  all: repeat split; intros; try reflexivity; try tauto; try lia.
  all: try (exfalso; intuition congruence).
Qed.

Lemma fetchR2Objects_outcome_witness :
  responses (calls (Sample.env Sample.token (Sample.okJson "bytes"))
               (fetchR2Objects Sample.version "/r2/o" emptyInit))
  = [Sample.okJson "bytes"]
  /\ 200 <= Response.status (Sample.okJson "bytes") <= 299
  /\ Response.body (Sample.okJson "bytes") <> None
  /\ run (Sample.env Sample.token (Sample.okJson "bytes"))
       (fetchR2Objects Sample.version "/r2/o" emptyInit)
     = inr (Some (Sample.okJson "bytes")).
Proof.
  assert (Hok : 200 <= Response.status (Sample.okJson "bytes") <= 299)
    by (cbn; lia).
  assert (Hbody : Response.body (Sample.okJson "bytes") <> None)
    by discriminate.
  split; [reflexivity|]. split; [exact Hok|]. split; [exact Hbody|].
  exact (proj1 (fetchR2Objects_outcome Sample.version
                  (Sample.env Sample.token (Sample.okJson "bytes"))
                  "/r2/o" emptyInit (Sample.okJson "bytes") eq_refl)
           (conj Hok Hbody)).
Defined.

(** C7. [fetchWorker] branches on the content type of the response. When
    it starts with [multipart], the body is read as form data, each entry of
    the form becomes a [File] (an entry that is not a [File] is wrapped in
    one named after its field), and the entry point is the [cf-entrypoint]
    header of the response, or [src/index.js] when the header is absent.
    Otherwise the result is exactly one [File] named [index.js] that holds
    the text of the response, with entry point [index.js]. Every response
    that is not ok or has no body makes [fetchWorker] throw. *)
Theorem fetchWorker_outcome ver env resource bodyInit response :
  responses (calls env (fetchWorker ver resource bodyInit)) = [response] ->
  let isOk := 200 <= Response.status response <= 299 in
  let present := Response.body response <> None in
  let contentType := Headers.get "content-type" (Response.headers response) in
  (~ isOk \/ ~ present ->
   run env (fetchWorker ver resource bodyInit)
   = inl (Error ("Failed to fetch " ++ resource ++ " - "
                   ++ JsString.ofNumber (Response.status response) ++ ": "
                   ++ Response.statusText response ++ ");")))
  /\ (isOk -> present ->
      forall mime form,
        contentType = Some mime ->
        JsString.startsWith "multipart" mime = true ->
        env_formData env response = inr form ->
        run env (fetchWorker ver resource bodyInit)
        = inr {| entrypoint :=
                   match Headers.get "cf-entrypoint"
                           (Response.headers response) with
                   | Some e => e
                   | None => "src/index.js"
                   end;
                 modules := map toFile form |})
  /\ (isOk -> present ->
      contentType = None
      \/ (exists mime, contentType = Some mime
                       /\ JsString.startsWith "multipart" mime = false) ->
      exists file,
        run env (fetchWorker ver resource bodyInit)
        = inr {| entrypoint := "index.js"; modules := [file] |}
        /\ file_name file = "index.js"
        /\ file_contents file = Response.text response)
  /\ (forall name file, toFile (name, EntryFile file) = file)
  /\ (forall name s,
        toFile (name, EntryString s)
        = {| file_contents := s; file_name := name;
             file_typeOption := None |})
  /\ (forall name blob,
        toFile (name, EntryOtherFile blob)
        = {| file_contents := file_contents blob; file_name := name;
             file_typeOption := None |}).
Proof.
  unfold run, calls, fetchWorker, usesModules. interp_cases.
  all: try discriminate.
  all: intros [= <-]; cbv zeta; rewrite <- ok_spec, <- hasBody_spec.
  all: repeat match goal with
         | H : (_ || _)%bool = true |- _ => apply orb_true_iff in H
         | H : (_ || _)%bool = false |- _ => apply orb_false_iff in H
         | H : negb _ = true |- _ => apply negb_true_iff in H
         | H : negb _ = false |- _ => apply negb_false_iff in H
         end.
  all: split; [|split; [|split; [|split; [|split]]]]; try reflexivity.
  all: intros.
  all: repeat match goal with
         | H : _ \/ _ |- _ => destruct H
         | H : _ /\ _ |- _ => destruct H
         | H : exists _, _ |- _ => destruct H
         end.
  all: repeat match goal with
         | H : negb _ = true |- _ => apply negb_true_iff in H
         | H : negb _ = false |- _ => apply negb_false_iff in H
         end.
  all: try reflexivity; try congruence.
  all: try (eexists; split; [reflexivity | split; reflexivity]).
  all: match goal with
       | Hget : Headers.get _ _ = _,
         Hm : match Headers.get _ _ with _ => _ end = _ |- _ =>
           rewrite Hget in Hm
       end; congruence.
Qed.

Lemma fetchWorker_outcome_witness :
  responses (calls (Sample.envWithForm Sample.modulesReply)
               (fetchWorker Sample.version "/script" emptyInit))
  = [Sample.modulesReply]
  /\ 200 <= Response.status Sample.modulesReply <= 299
  /\ Response.body Sample.modulesReply <> None
  /\ Headers.get "content-type" (Response.headers Sample.modulesReply)
     = Some "multipart/form-data; boundary=xyz"
  /\ JsString.startsWith "multipart" "multipart/form-data; boundary=xyz"
     = true
  /\ env_formData (Sample.envWithForm Sample.modulesReply)
       Sample.modulesReply
     = inr Sample.modulesForm
  /\ run (Sample.envWithForm Sample.modulesReply)
       (fetchWorker Sample.version "/script" emptyInit)
     = inr {| entrypoint := "worker.mjs";
              modules :=
                [{| file_contents := "export default {}";
                    file_name := "worker.mjs";
                    file_typeOption := None |};
                 {| file_contents := "hello";
                    file_name := "data.txt";
                    file_typeOption := None |}] |}.
Proof.
  assert (Hok : 200 <= Response.status Sample.modulesReply <= 299)
    by (cbn; lia).
  assert (Hbody : Response.body Sample.modulesReply <> None)
    by discriminate.
  split; [reflexivity|]. split; [exact Hok|]. split; [exact Hbody|].
  split; [reflexivity|]. split; [reflexivity|]. split; [reflexivity|].
  exact (proj1 (proj2 (fetchWorker_outcome Sample.version
                         (Sample.envWithForm Sample.modulesReply)
                         "/script" emptyInit Sample.modulesReply eq_refl))
           Hok Hbody "multipart/form-data; boundary=xyz" Sample.modulesForm
           eq_refl eq_refl eq_refl).
Defined.

(** ** The assertion on the resource *)

Ltac raises_cases H :=
  repeat (cbn [raises bind call] in H;
          match type of H with
          | exists _, _ => destruct H as [? H]
          | raises (if ?b then _ else _) _ => destruct b eqn:?
          | raises (match ?x with _ => _ end) _ => destruct x eqn:?
          | raises (bind (if ?b then _ else _) _) _ => destruct b eqn:?
          | raises (bind (match ?x with _ => _ end) _) _ => destruct x eqn:?
          end).

Lemma raises_bind {A B : Type} (m : Async A) (f : A -> Async B) (e : Exn) :
  raises (bind m f) e -> raises m e \/ exists a, raises (f a) e.
Proof.
  induction m as [a|e'|c k IH]; simpl.
  - intros H. right. now exists a.
  - intros H. now left.
  - intros [x H]. destruct (IH x H) as [Hm|Hf]; [left; now exists x|now right].
Qed.

Lemma performApiFetch_no_assertion ver sI resource init queryParams
    abortSignal m :
  JsString.startsWith "/" resource = true ->
  ~ raises (performApiFetch ver sI resource init queryParams abortSignal)
      (AssertionError m).
Proof.
  intros H Hr. unfold performApiFetch, assert, requireLoggedIn in Hr.
  rewrite H in Hr. raises_cases Hr.
  all: first [discriminate Hr | contradiction].
Qed.

(** C8. [performApiFetch], and so [fetchInternal], which calls it first,
    throws an assertion failure for every resource that does not start with
    a slash, before the login check and before any other call; when the
    resource starts with a slash, that failure is unreachable:
    [performApiFetch] never throws it, and [fetchInternal] does not either
    unless [parseJSON] hands it one. *)
Theorem resource_must_start_with_slash ver sI RT parseJSON resource init
    queryParams abortSignal :
  let message :=
    "CF API fetch - resource path must start with a " ++ JsString.dquote
      ++ "/" ++ JsString.dquote ++ " but got " ++ JsString.dquote
      ++ resource ++ JsString.dquote in
  (JsString.startsWith "/" resource = false ->
   performApiFetch ver sI resource init queryParams abortSignal
   = Throw (AssertionError message)
   /\ fetchInternal ver sI RT parseJSON resource init queryParams abortSignal
      = Throw (AssertionError message)
   /\ forall w hist,
        exec w hist (performApiFetch ver sI resource init queryParams
                       abortSignal)
        = (inl (AssertionError message), [])
        /\ exec w hist (fetchInternal ver sI RT parseJSON resource init
                          queryParams abortSignal)
           = (inl (AssertionError message), []))
  /\ (JsString.startsWith "/" resource = true ->
      (forall m,
         ~ raises (performApiFetch ver sI resource init queryParams
                     abortSignal) (AssertionError m))
      /\ ((forall input m, parseJSON input <> inl (AssertionError m)) ->
          forall m,
            ~ raises (fetchInternal ver sI RT parseJSON resource init
                        queryParams abortSignal) (AssertionError m))).
Proof.
  cbv zeta. split.
  - intros H. unfold fetchInternal, performApiFetch, assert. rewrite H.
    repeat split; reflexivity.
  - intros H. split.
    + intros m. now apply performApiFetch_no_assertion.
    + intros Hparse m Hr. unfold fetchInternal in Hr.
      apply raises_bind in Hr. destruct Hr as [Hr|[response Hr]].
      * now apply performApiFetch_no_assertion in Hr.
      * raises_cases Hr.
        all: try contradiction; try discriminate Hr.
        all: cbn [raises] in Hr; subst.
        all: match goal with
             | E : _ = inl (AssertionError _) |- _ => now apply Hparse in E
             end.
Qed.

Lemma resource_must_start_with_slash_witness :
  JsString.startsWith "/" "zones" = false
  /\ JsString.startsWith "/" "/zones" = true
  /\ interp (Sample.env Sample.token Sample.noContent)
       (fetchInternal Sample.version Sample.stringifyInit Json.value
          Json.parseJSON "zones" emptyInit None None)
     = (inl (AssertionError
               ("CF API fetch - resource path must start with a "
                  ++ JsString.dquote ++ "/" ++ JsString.dquote
                  ++ " but got " ++ JsString.dquote ++ "zones"
                  ++ JsString.dquote)), [])
  /\ (forall input m, Json.parseJSON input <> inl (AssertionError m))
  /\ (forall m,
        ~ raises (performApiFetch Sample.version Sample.stringifyInit
                    "/zones" emptyInit None None) (AssertionError m))
  /\ (forall m, ~ raises Sample.fetchZones (AssertionError m)).
Proof.
  assert (Hparse : forall input m,
             Json.parseJSON input <> inl (AssertionError m)).
  { intros input m. unfold Json.parseJSON.
    destruct (Json.parse input); discriminate. }
  split; [reflexivity|]. split; [reflexivity|]. split; [|split; [|split]].
  - rewrite (proj1 (proj2 (proj1 (resource_must_start_with_slash
                                    Sample.version Sample.stringifyInit
                                    Json.value Json.parseJSON
                                    "zones" emptyInit None None) eq_refl))).
    reflexivity.
  - exact Hparse.
  - exact (proj1 (proj2 (resource_must_start_with_slash Sample.version
                           Sample.stringifyInit Json.value Json.parseJSON
                           "/zones" emptyInit None None) eq_refl)).
  - exact (proj2 (proj2 (resource_must_start_with_slash Sample.version
                           Sample.stringifyInit Json.value Json.parseJSON
                           "/zones" emptyInit None None) eq_refl) Hparse).
Defined.

(** ** The header log *)

Module BlankFacts.
Import JsObject.

Lemma fst_blank1 (k : string) (kv : string * string) :
  fst (blank1 k kv) = fst kv.
Proof. unfold blank1. now destruct (String.eqb k (fst kv)). Qed.

Lemma blank_set (k k' v : string) (o : t) :
  blank k (set k' v o) = set k' (snd (blank1 k (k', v))) (blank k o).
Proof.
  induction o as [|[k2 v2] o IH]; simpl.
  - unfold blank1; simpl. now destruct (String.eqb k k').
  - destruct (String.eqb_spec k' k2) as [->|Hne]; simpl.
    + unfold blank1; simpl. destruct (String.eqb k k2); simpl;
        now rewrite String.eqb_refl.
    + rewrite IH. unfold blank1; simpl.
      destruct (String.eqb k k2); simpl;
        destruct (String.eqb_spec k' k2); try contradiction; reflexivity.
Qed.

Lemma blank_fold (k : string) (l : list (string * string)) :
  forall o,
    blank k (fold_left (fun o kv => set (fst kv) (snd kv) o) l o)
    = fold_left (fun o kv => set (fst kv) (snd kv) o) (blank k l)
        (blank k o).
Proof.
  induction l as [|[k' v'] l IH]; intros o; simpl; [reflexivity|].
  rewrite IH, blank_set. f_equal. f_equal.
  unfold blank1; simpl. now destruct (String.eqb k k').
Qed.

Lemma blank_fromEntries (k : string) (l : list (string * string)) :
  blank k (fromEntries l) = fromEntries (blank k l).
Proof. unfold fromEntries. now rewrite blank_fold. Qed.

Lemma blank_insertIndexed (k : string) (n : N) (kv : string * string)
    (l : list (N * (string * string))) :
  map (fun e => (fst e, blank1 k (snd e))) (insertIndexed n kv l)
  = insertIndexed n (blank1 k kv)
      (map (fun e => (fst e, blank1 k (snd e))) l).
Proof.
  induction l as [|[m kv'] l IH]; simpl; [reflexivity|].
  destruct (n <? m)%N; simpl; [reflexivity | now rewrite IH].
Qed.

Lemma blank_indexed (k : string) (o : t) :
  indexed (blank k o)
  = map (fun e => (fst e, blank1 k (snd e))) (indexed o).
Proof.
  induction o as [|kv o IH]; simpl; [reflexivity|].
  fold (blank1 k kv). rewrite fst_blank1.
  destruct (arrayIndex (fst kv)); [|exact IH].
  now rewrite blank_insertIndexed, <- IH.
Qed.

Lemma blank_named (k : string) (o : t) :
  named (blank k o) = blank k (named o).
Proof.
  induction o as [|kv o IH]; simpl; [reflexivity|].
  fold (blank1 k kv). rewrite fst_blank1.
  destruct (arrayIndex (fst kv)); simpl; now rewrite <- IH.
Qed.

Lemma blank_entries (k : string) (o : t) :
  entries (blank k o) = blank k (entries o).
Proof.
  unfold entries. rewrite blank_indexed, blank_named.
  unfold blank. rewrite map_app, !map_map. reflexivity.
Qed.

Lemma blank_spread (k : string) (o : t) :
  blank k (spread o) = spread (blank k o).
Proof. unfold spread. now rewrite blank_fromEntries, blank_entries. Qed.

Lemma delete_blank (k : string) (o : t) :
  delete k (blank k o) = delete k o.
Proof.
  induction o as [|[k' v'] o IH]; simpl; [reflexivity|].
  unfold blank1; simpl.
  destruct (String.eqb k k') eqn:E; simpl; rewrite E; now rewrite ?IH.
Qed.

(** Deleting [k] from a copy hides the value [k] had. *)
Lemma delete_spread_blank (k : string) (o o' : t) :
  blank k o = blank k o' -> delete k (spread o) = delete k (spread o').
Proof.
  intros H.
  rewrite <- (delete_blank k (spread o)), <- (delete_blank k (spread o')).
  now rewrite !blank_spread, H.
Qed.

End BlankFacts.

(** The log line of [performApiFetch] for the request headers: what is
    logged does not depend on the token. *)
Lemma logged_headers_token ver h apiToken apiToken' :
  JsObject.delete "Authorization"
    (cloneHeaders
       (Some (HI_Record
                (addUserAgent ver
                   (addAuthorizationHeaderIfUnspecified h
                      (ApiToken apiToken))))))
  = JsObject.delete "Authorization"
      (cloneHeaders
         (Some (HI_Record
                  (addUserAgent ver
                     (addAuthorizationHeaderIfUnspecified h
                        (ApiToken apiToken')))))).
Proof.
  cbn [cloneHeaders]. apply BlankFacts.delete_spread_blank.
  unfold addUserAgent, addAuthorizationHeaderIfUnspecified.
  destruct (JsObject.has "Authorization" h); cbn [negb]; [reflexivity|].
  now rewrite !BlankFacts.blank_set.
Qed.

(** X23. With a token credential the header log of [performApiFetch] is
    the same whatever the token is. *)
Theorem header_log_hides_token ver sI env resource init queryParams
    abortSignal apiToken apiToken' :
  headerLogs (calls (withCredentials (ApiToken apiToken) env)
                (performApiFetch ver sI resource init queryParams
                   abortSignal))
  = headerLogs (calls (withCredentials (ApiToken apiToken') env)
                  (performApiFetch ver sI resource init queryParams
                     abortSignal)).
Proof.
  pose proof (logged_headers_token ver (cloneHeaders (ri_headers init))
                apiToken apiToken') as Hlog.
  unfold calls, performApiFetch, withCredentials.
  unfold assert, requireLoggedIn; exec_step.
  destruct (JsString.startsWith "/" resource); exec_step; [|reflexivity].
  cbn [env_login env_apiToken env_baseUrl env_fetch env_formDataText].
  destruct (env_login env) as [e|[|]]; exec_step; try reflexivity.
  cbn [env_login env_apiToken env_baseUrl env_fetch env_formDataText].
  rewrite Hlog.
  destruct (ri_body init) as [[s|form|bytes]|]; exec_step.
  all: cbn [env_login env_apiToken env_baseUrl env_fetch env_formDataText].
  all: repeat match goal with
         | |- context [match env_fetch ?e ?u ?i with _ => _ end] =>
             destruct (env_fetch e u i); exec_step
         end.
  all: reflexivity.
Qed.

(** C10, where the code departs from it. The claim: the header listings
    that are logged never hold the credential, so two runs that differ only
    in the credential log the same headers. With a key and email credential
    the two runs below, which differ only in the API key, log different
    headers: the clone that is logged loses [Authorization] but keeps
    [X-Auth-Key]. *)
Theorem header_log_shows_auth_key :
  let run1 :=
    calls (Sample.env (AuthKeyEmail "key-one" "me@example.com")
             Sample.noContent)
      (performApiFetch Sample.version Sample.stringifyInit "/zones"
         emptyInit None None) in
  let run2 :=
    calls (Sample.env (AuthKeyEmail "key-two" "me@example.com")
             Sample.noContent)
      (performApiFetch Sample.version Sample.stringifyInit "/zones"
         emptyInit None None) in
  headerLogs run1 <> headerLogs run2
  /\ headerLogs run1
     = [[LogString
           (JsObject.stringify
              [("X-Auth-Key", "key-one");
               ("X-Auth-Email", "me@example.com");
               ("User-Agent", "wrangler/3.0.0")])]].
Proof. cbv zeta. split; [vm_compute; discriminate | reflexivity]. Qed.

(** * Further properties *)

(** ** Which request is sent, and when *)

Lemma requests_perform ver sI RT parseJSON env op :
  requests (calls env (perform ver sI RT parseJSON op))
  = match env_login env, env_apiToken env with
    | inr true, inr auth =>
        if admissible op
        then [(requestUrl (env_baseUrl env) op, requestInit ver op auth)]
        else []
    | _, _ => []
    end.
Proof.
  destruct op; unfold calls, perform, fetchInternal, performApiFetch,
    fetchKVGetValue, fetchR2Objects, fetchWorker;
    cbn [admissible requestUrl requestInit].
  all: interp_cases.
  all: reflexivity.
Qed.

(** X1. For a user who is logged in and has a credential, an operation
    whose resource is admissible sends exactly one request, whether or not
    the request then succeeds: to the base URL followed by the resource
    (and the query string, or the path of the KV value), with the method,
    body and signal of the operation and the outgoing headers.
    [performApiFetch] and [fetchInternal] send the method [GET] when the
    caller names none and hand on the [abortSignal] argument, not the
    signal of [init]; [fetchR2Objects] and [fetchWorker] hand on the
    method and signal of [bodyInit] as they are. *)
Theorem request_sent ver sI RT parseJSON env op auth :
  env_login env = inr true ->
  env_apiToken env = inr auth ->
  admissible op = true ->
  requests (calls env (perform ver sI RT parseJSON op))
  = [(requestUrl (env_baseUrl env) op, requestInit ver op auth)].
Proof.
  intros Hlogin Htoken Hok.
  now rewrite requests_perform, Hlogin, Htoken, Hok.
Qed.

Lemma request_sent_witness :
  env_login (Cases.offline) = inr true
  /\ env_apiToken (Cases.offline) = inr Sample.token
  /\ admissible (PerformApiFetch "/upload" Cases.upload
                   (Some (mkURLSearchParams "a=1")) None) = true
  /\ requests (calls Cases.offline
                 (Cases.perform
                    (PerformApiFetch "/upload" Cases.upload
                       (Some (mkURLSearchParams "a=1")) None)))
     = [("https://api.cloudflare.com/client/v4/upload?a=1",
         {| fi_method := Some "PUT";
            fi_headers := [("Accept", "application/json"); ("accept", "a");
                           ("Authorization", "Bearer t0ken");
                           ("User-Agent", "wrangler/3.0.0")];
            fi_body := Some (Body_FormData Sample.form);
            fi_signal := None |})].
Proof.
  split; [reflexivity|]. split; [reflexivity|]. split; [reflexivity|].
  exact (request_sent Sample.version Sample.stringifyInit Json.value
           Json.parseJSON Cases.offline
           (PerformApiFetch "/upload" Cases.upload
              (Some (mkURLSearchParams "a=1")) None)
           Sample.token eq_refl eq_refl eq_refl).
Defined.

(** X2. No operation sends a request unless the login check returned true,
    a credential was obtained and the resource is admissible. *)
Theorem no_request_unless_ready ver sI RT parseJSON env op :
  requests (calls env (perform ver sI RT parseJSON op)) <> [] ->
  env_login env = inr true
  /\ (exists auth, env_apiToken env = inr auth)
  /\ admissible op = true.
Proof.
  rewrite requests_perform.
  destruct (env_login env) as [e|[|]]; try congruence.
  destruct (env_apiToken env) as [e|auth]; try congruence.
  destruct (admissible op); try congruence.
  intros _. repeat split. now exists auth.
Qed.

Lemma no_request_unless_ready_witness :
  requests (calls (Sample.env Sample.token Sample.noContent)
              (Cases.perform Cases.script)) <> []
  /\ env_login (Sample.env Sample.token Sample.noContent) = inr true
  /\ (exists auth,
        env_apiToken (Sample.env Sample.token Sample.noContent) = inr auth)
  /\ admissible Cases.script = true.
Proof.
  assert (H : requests (calls (Sample.env Sample.token Sample.noContent)
                          (Cases.perform Cases.script)) <> [])
    by discriminate.
  split; [exact H|].
  exact (no_request_unless_ready Sample.version Sample.stringifyInit
           Json.value Json.parseJSON
           (Sample.env Sample.token Sample.noContent) Cases.script H).
Defined.

(** ** Failures of the collaborators *)

(** X3. When the login check returns false, every operation with an
    admissible resource throws the [UserError] [Not logged in.], and the
    login check is the only call it makes: it asks for no credential and
    sends no request. *)
Theorem not_logged_in ver sI RT parseJSON env op :
  env_login env = inr false ->
  admissible op = true ->
  run env (perform ver sI RT parseJSON op) = inl (UserError "Not logged in.")
  /\ calls env (perform ver sI RT parseJSON op)
     = [Ev loginOrRefreshIfRequired (inr false)].
Proof.
  intros Hlogin Hok.
  destruct op; cbn [admissible] in Hok;
    unfold run, calls, perform, fetchInternal, performApiFetch,
      fetchKVGetValue, fetchR2Objects, fetchWorker, assert, requireLoggedIn;
    rewrite ?Hok; exec_step; rewrite Hlogin; exec_step;
    split; reflexivity.
Qed.

Lemma not_logged_in_witness :
  env_login Cases.loggedOut = inr false
  /\ admissible Cases.script = true
  /\ run Cases.loggedOut (Cases.perform Cases.script)
     = inl (UserError "Not logged in.")
  /\ calls Cases.loggedOut (Cases.perform Cases.script)
     = [Ev loginOrRefreshIfRequired (inr false)].
Proof.
  split; [reflexivity|]. split; [reflexivity|].
  exact (not_logged_in Sample.version Sample.stringifyInit Json.value
           Json.parseJSON Cases.loggedOut Cases.script eq_refl eq_refl).
Defined.

(** X4. What a collaborator throws before the request is what the
    operation throws, and nothing is called after it: an error of the login
    check ends the call there, and an error of [requireApiToken] ends it
    after these two calls, with no request sent. *)
Theorem error_before_request ver sI RT parseJSON env op e :
  admissible op = true ->
  (env_login env = inl e ->
   run env (perform ver sI RT parseJSON op) = inl e
   /\ calls env (perform ver sI RT parseJSON op)
      = [Ev loginOrRefreshIfRequired (inl e)])
  /\ (env_login env = inr true -> env_apiToken env = inl e ->
      run env (perform ver sI RT parseJSON op) = inl e
      /\ calls env (perform ver sI RT parseJSON op)
         = [Ev loginOrRefreshIfRequired (inr true);
            Ev requireApiToken (inl e)]).
Proof.
  intros Hok.
  destruct op; cbn [admissible] in Hok;
    unfold run, calls, perform, fetchInternal, performApiFetch,
      fetchKVGetValue, fetchR2Objects, fetchWorker, assert, requireLoggedIn;
    rewrite ?Hok; exec_step.
  all: split; [intros Hlogin | intros Hlogin Htoken];
    rewrite Hlogin; exec_step; rewrite ?Htoken; exec_step;
    split; reflexivity.
Qed.

Lemma error_before_request_witness :
  admissible Cases.script = true
  /\ env_login Cases.noToken = inr true
  /\ env_apiToken Cases.noToken = inl (Foreign "no token")
  /\ run Cases.noToken (Cases.perform Cases.script)
     = inl (Foreign "no token")
  /\ calls Cases.noToken (Cases.perform Cases.script)
     = [Ev loginOrRefreshIfRequired (inr true);
        Ev requireApiToken (inl (Foreign "no token"))].
Proof.
  split; [reflexivity|]. split; [reflexivity|]. split; [reflexivity|].
  exact (proj2 (error_before_request Sample.version Sample.stringifyInit
                  Json.value Json.parseJSON Cases.noToken Cases.script
                  (Foreign "no token") eq_refl) eq_refl eq_refl).
Defined.

(** X5. When [fetch] rejects, the operation rejects with the same error,
    and the request is the last call it makes: nothing is logged, read or
    parsed after it. *)
Theorem fetch_error_propagates ver sI RT parseJSON env op auth e :
  env_login env = inr true ->
  env_apiToken env = inr auth ->
  admissible op = true ->
  env_fetch env (requestUrl (env_baseUrl env) op) (requestInit ver op auth)
  = inl e ->
  run env (perform ver sI RT parseJSON op) = inl e
  /\ exists before,
       calls env (perform ver sI RT parseJSON op)
       = (before
            ++ [Ev (fetch (requestUrl (env_baseUrl env) op)
                      (requestInit ver op auth)) (inl e)])%list
       /\ requests before = [].
Proof.
  intros Hlogin Htoken Hok.
  destruct op; cbn [admissible requestUrl requestInit outgoingHeaders
                     callerHeaders] in *;
    unfold run, calls, perform, fetchInternal, performApiFetch,
      fetchKVGetValue, fetchR2Objects, fetchWorker, queryString, methodOf.
  all: interp_cases.
  all: intros Hfetch.
  all: try match goal with
         | H : inl _ = inr _ |- _ => discriminate H
         | H : inr false = inr true |- _ => discriminate H
         | H : false = true |- _ => discriminate H
         end.
  all: repeat match goal with
         | H : inr _ = inr _ |- _ => injection H as H; subst
         end.
  all: match goal with
       | H1 : env_fetch _ ?u ?i = _, H2 : env_fetch _ ?u ?i = inl _ |- _ =>
           rewrite H1 in H2
       end.
  all: try match goal with
         | H : inr _ = inl _ |- _ => discriminate H
         end.
  all: match goal with
       | H : inl _ = inl _ |- _ => injection H as ->
       end.
  all: split; [reflexivity|].
  all: match goal with
       | |- exists before, ?l = _ /\ _ => exists (removelast l)
       end.
  all: cbn [removelast app requests]; split; reflexivity.
Qed.

Lemma fetch_error_propagates_witness :
  env_login Cases.offline = inr true
  /\ env_apiToken Cases.offline = inr Sample.token
  /\ admissible Cases.script = true
  /\ run Cases.offline (Cases.perform Cases.script)
     = inl (Foreign "ECONNREFUSED").
Proof.
  split; [reflexivity|]. split; [reflexivity|]. split; [reflexivity|].
  exact (proj1 (fetch_error_propagates Sample.version Sample.stringifyInit
                  Json.value Json.parseJSON Cases.offline Cases.script
                  Sample.token (Foreign "ECONNREFUSED")
                  eq_refl eq_refl eq_refl eq_refl)).
Defined.

(** ** The outgoing headers *)

Module SetFacts.
Import JsObject.

(** Writing the value a name already has changes nothing. *)
Lemma set_same_value (k v : string) (o : t) :
  get k o = Some v -> set k v o = o.
Proof.
  induction o as [|[k' v'] o IH]; simpl; [discriminate|].
  destruct (String.eqb k k') eqn:E.
  - now intros [= ->].
  - intros H. now rewrite IH.
Qed.

End SetFacts.



(** The operations that clone the caller's headers and set [User-Agent];
    [fetchKVGetValue] does neither. *)
Lemma outgoingHeaders_cases ver op auth :
  match op with
  | FetchKVGetValue _ _ _ =>
      outgoingHeaders ver op auth
      = addAuthorizationHeaderIfUnspecified JsObject.empty auth
  | _ =>
      outgoingHeaders ver op auth
      = addUserAgent ver
          (addAuthorizationHeaderIfUnspecified (callerHeaders op) auth)
  end.
Proof. now destruct op. Qed.

Lemma request_has_credential ver sI RT parseJSON env op req :
  In req (requests (calls env (perform ver sI RT parseJSON op))) ->
  exists auth, env_apiToken env = inr auth.
Proof.
  intros Hin.
  assert (Hne : requests (calls env (perform ver sI RT parseJSON op)) <> [])
    by (intros E; rewrite E in Hin; exact Hin).
  rewrite requests_perform in Hne.
  destruct (env_apiToken env) as [e|auth]; [|now exists auth].
  destruct (env_login env) as [?|[|]]; congruence.
Qed.

(** X7. In every request of [performApiFetch], [fetchInternal],
    [fetchR2Objects] and [fetchWorker] the header spelled exactly
    [User-Agent] has the value [wrangler/] followed by the version,
    whatever value the caller gave under that spelling; the request of
    [fetchKVGetValue] has no header of that spelling. A header the caller
    supplied under another spelling of the name, such as the [user-agent]
    of a [Headers] instance, is not overridden: it goes out unchanged, next
    to the one the transport writes. *)
Theorem user_agent_sent ver sI RT parseJSON env op req :
  In req (requests (calls env (perform ver sI RT parseJSON op))) ->
  JsObject.get "User-Agent" (fi_headers (snd req))
  = match op with
    | FetchKVGetValue _ _ _ => None
    | _ => Some ("wrangler/" ++ ver)
    end
  /\ forall k,
       k <> "User-Agent" -> sameName k "User-Agent" = true ->
       JsObject.get k (fi_headers (snd req))
       = JsObject.get k (callerHeaders op).
Proof.
  intros Hin. destruct (request_has_credential _ _ _ _ _ _ _ Hin)
    as [auth Htoken].
  rewrite (sent_headers _ _ _ _ _ _ _ _ Htoken Hin). split.
  - destruct op; cbn [outgoingHeaders]; unfold addUserAgent;
      try apply JsObjectFacts.get_set_same.
    unfold addAuthorizationHeaderIfUnspecified. cbn [JsObject.has negb
      JsObject.empty]. now destruct auth.
  - intros k Hu Hsame.
    assert (Ha : k <> "Authorization") by (intros ->; discriminate Hsame).
    assert (Hk : k <> "X-Auth-Key") by (intros ->; discriminate Hsame).
    assert (He : k <> "X-Auth-Email") by (intros ->; discriminate Hsame).
    assert (Hauth : forall h,
               JsObject.get k (addAuthorizationHeaderIfUnspecified h auth)
               = JsObject.get k h).
    { intros h. unfold addAuthorizationHeaderIfUnspecified.
      destruct (negb (JsObject.has "Authorization" h)); [|reflexivity].
      destruct auth;
        now rewrite !JsObjectFacts.get_set_other by assumption. }
    destruct op; cbn [outgoingHeaders callerHeaders]; unfold addUserAgent;
      rewrite ?JsObjectFacts.get_set_other by assumption; apply Hauth.
Qed.

Lemma user_agent_sent_witness :
  In Cases.ownAgentRequest
    (Sample.sent (Sample.env Sample.token Sample.noContent) Cases.ownAgent)
  /\ "user-agent" <> "User-Agent"
  /\ sameName "user-agent" "User-Agent" = true
  /\ JsObject.get "User-Agent" (fi_headers (snd Cases.ownAgentRequest))
     = Some "wrangler/3.0.0"
  /\ JsObject.get "user-agent" (fi_headers (snd Cases.ownAgentRequest))
     = Some "mine/1.0".
Proof.
  assert (Hin : In Cases.ownAgentRequest
                  (Sample.sent (Sample.env Sample.token Sample.noContent)
                     Cases.ownAgent)) by (left; reflexivity).
  assert (Hne : "user-agent" <> "User-Agent") by discriminate.
  split; [exact Hin|]. split; [exact Hne|]. split; [reflexivity|].
  destruct (user_agent_sent Sample.version Sample.stringifyInit Json.value
              Json.parseJSON (Sample.env Sample.token Sample.noContent)
              Cases.ownAgent Cases.ownAgentRequest Hin) as [Hset Hkept].
  split; [exact Hset|].
  exact (Hkept "user-agent" Hne eq_refl).
Defined.

(** X8. Every other header of the caller is handed on unchanged: for a name
    other than [Authorization], [X-Auth-Key], [X-Auth-Email] and
    [User-Agent], the request has the value the clone of the caller's
    headers has, or none if it has none. *)
Theorem caller_headers_forwarded ver sI RT parseJSON env op req k :
  In req (requests (calls env (perform ver sI RT parseJSON op))) ->
  k <> "Authorization" -> k <> "X-Auth-Key" -> k <> "X-Auth-Email" ->
  k <> "User-Agent" ->
  JsObject.get k (fi_headers (snd req)) = JsObject.get k (callerHeaders op).
Proof.
  intros Hin Ha Hk He Hu.
  destruct (request_has_credential _ _ _ _ _ _ _ Hin) as [auth Htoken].
  rewrite (sent_headers _ _ _ _ _ _ _ _ Htoken Hin).
  assert (Hauth : forall h,
             JsObject.get k (addAuthorizationHeaderIfUnspecified h auth)
             = JsObject.get k h).
  { intros h. unfold addAuthorizationHeaderIfUnspecified.
    destruct (negb (JsObject.has "Authorization" h)); [|reflexivity].
    destruct auth; now rewrite !JsObjectFacts.get_set_other by assumption. }
  destruct op; cbn [outgoingHeaders callerHeaders]; unfold addUserAgent;
    rewrite ?JsObjectFacts.get_set_other by assumption; apply Hauth.
Qed.

Lemma caller_headers_forwarded_witness :
  In ("https://api.cloudflare.com/client/v4/upload",
      {| fi_method := Some "PUT";
         fi_headers := [("Accept", "application/json"); ("accept", "a");
                        ("Authorization", "Bearer t0ken");
                        ("User-Agent", "wrangler/3.0.0")];
         fi_body := Some (Body_FormData Sample.form);
         fi_signal := Some 7 |})
    (Sample.sent Cases.offline (FetchR2Objects "/upload" Cases.upload))
  /\ JsObject.get "Accept"
       [("Accept", "application/json"); ("accept", "a");
        ("Authorization", "Bearer t0ken"); ("User-Agent", "wrangler/3.0.0")]
     = JsObject.get "Accept"
         (callerHeaders (FetchR2Objects "/upload" Cases.upload)).
Proof.
  assert (Hin : In ("https://api.cloudflare.com/client/v4/upload",
                    {| fi_method := Some "PUT";
                       fi_headers :=
                         [("Accept", "application/json"); ("accept", "a");
                          ("Authorization", "Bearer t0ken");
                          ("User-Agent", "wrangler/3.0.0")];
                       fi_body := Some (Body_FormData Sample.form);
                       fi_signal := Some 7 |})
                  (Sample.sent Cases.offline
                     (FetchR2Objects "/upload" Cases.upload)))
    by (left; reflexivity).
  split; [exact Hin|].
  exact (caller_headers_forwarded Sample.version Sample.stringifyInit
           Json.value Json.parseJSON Cases.offline
           (FetchR2Objects "/upload" Cases.upload) _ "Accept" Hin
           ltac:(discriminate) ltac:(discriminate) ltac:(discriminate)
           ltac:(discriminate)).
Defined.

(** X9. [addAuthorizationHeaderIfUnspecified] is idempotent: applied a
    second time with the same credential, it changes nothing. *)
Theorem addAuthorization_idempotent (h : JsObject.t) (auth : ApiCredentials) :
  addAuthorizationHeaderIfUnspecified
    (addAuthorizationHeaderIfUnspecified h auth) auth
  = addAuthorizationHeaderIfUnspecified h auth.
Proof.
  unfold addAuthorizationHeaderIfUnspecified.
  destruct (JsObject.has "Authorization" h) eqn:Hh; cbn [negb].
  - now rewrite Hh.
  - destruct auth as [apiToken|authKey authEmail].
    + now rewrite JsObjectFacts.has_set_same.
    + rewrite !JsObjectFacts.has_set_other, Hh by discriminate. cbn [negb].
      rewrite (SetFacts.set_same_value "X-Auth-Key" authKey).
      * apply SetFacts.set_same_value, JsObjectFacts.get_set_same.
      * rewrite JsObjectFacts.get_set_other by discriminate.
        apply JsObjectFacts.get_set_same.
Qed.

(** ** Cloning headers *)

Module CloneFacts.
Import JsObject.

Lemma get_app (k : string) (l l' : t) :
  get k (l ++ l')%list
  = match get k l with
    | Some v => Some v
    | None => get k l'
    end.
Proof.
  induction l as [|[k' v'] l IH]; simpl; [reflexivity|].
  now destruct (String.eqb k k').
Qed.

Lemma get_fold (k : string) (l : list (string * string)) :
  forall o,
    get k (fold_left (fun o kv => set (fst kv) (snd kv) o) l o)
    = match get k (List.rev l) with
      | Some v => Some v
      | None => get k o
      end.
Proof.
  induction l as [|[k' v'] l IH]; intros o; simpl; [reflexivity|].
  rewrite IH, get_app. destruct (get k (List.rev l)); [reflexivity|]. simpl.
  destruct (String.eqb_spec k k') as [->|Hne].
  - apply JsObjectFacts.get_set_same.
  - now apply JsObjectFacts.get_set_other.
Qed.

Lemma get_fromEntries (k : string) (l : list (string * string)) :
  get k (fromEntries l) = get k (List.rev l).
Proof.
  unfold fromEntries. rewrite get_fold. now destruct (get k (List.rev l)).
Qed.

Lemma get_In (k v : string) (l : t) : get k l = Some v -> In (k, v) l.
Proof.
  induction l as [|[k' v'] l IH]; simpl; [discriminate|].
  destruct (String.eqb_spec k k') as [->|Hne].
  - intros [= ->]. now left.
  - intros H. right. now apply IH.
Qed.

Lemma get_None (k : string) (l : t) :
  get k l = None <-> ~ In k (map fst l).
Proof.
  induction l as [|[k' v'] l IH]; simpl; [tauto|].
  destruct (String.eqb_spec k k') as [->|Hne].
  - split; [discriminate | intros H; exfalso; apply H; now left].
  - rewrite IH. split; [intros H [E|Hin]; [congruence | tauto] | tauto].
Qed.

Lemma In_get (k v : string) (l : t) :
  NoDup (map fst l) -> In (k, v) l -> get k l = Some v.
Proof.
  induction l as [|[k' v'] l IH]; simpl; [tauto|].
  intros Hnd [[= -> ->]|Hin].
  - now rewrite String.eqb_refl.
  - inversion Hnd as [|? ? Hnotin Hnd']; subst.
    destruct (String.eqb_spec k k') as [->|Hne].
    + exfalso. apply Hnotin. now apply (in_map fst) in Hin.
    + now apply IH.
Qed.

(** Looking a name up does not depend on the order of a record. *)
Lemma get_Permutation (k : string) (l l' : t) :
  NoDup (map fst l) -> Permutation l l' -> get k l = get k l'.
Proof.
  intros Hnd Hperm.
  assert (Hnd' : NoDup (map fst l'))
    by (eapply Permutation_NoDup; [apply Permutation_map, Hperm | exact Hnd]).
  destruct (get k l) as [v|] eqn:E.
  - symmetry. apply In_get; [exact Hnd'|].
    eapply Permutation_in; [exact Hperm | now apply get_In].
  - symmetry. apply get_None. apply get_None in E. intros Hin. apply E.
    eapply Permutation_in; [apply Permutation_map, Permutation_sym, Hperm|].
    exact Hin.
Qed.

Lemma insertIndexed_Permutation (n : N) (kv : string * string)
    (l : list (N * (string * string))) :
  Permutation (map snd (insertIndexed n kv l)) (kv :: map snd l).
Proof.
  induction l as [|[m kv'] l IH]; simpl; [reflexivity|].
  destruct (n <? m)%N; simpl; [reflexivity|].
  rewrite IH. apply perm_swap.
Qed.

(** The entries of a record are its properties in another order. *)
Lemma entries_Permutation (o : t) : Permutation (entries o) o.
Proof.
  unfold entries. induction o as [|kv o IH]; simpl; [reflexivity|].
  destruct (arrayIndex (fst kv)); simpl.
  - rewrite insertIndexed_Permutation. simpl. now apply perm_skip.
  - rewrite <- Permutation_middle. now apply perm_skip.
Qed.

Lemma get_spread (k : string) (o : t) :
  NoDup (map fst o) -> get k (spread o) = get k o.
Proof.
  intros Hnd. unfold spread. rewrite get_fromEntries.
  symmetry. apply get_Permutation; [exact Hnd|].
  rewrite <- Permutation_rev. symmetry. apply entries_Permutation.
Qed.


End CloneFacts.

(** X10. When the caller's headers are an array of pairs or a [Headers]
    instance, the clone gives each name the value of the last entry that
    has it: a later entry overwrites an earlier one. *)
Theorem cloneHeaders_last_wins (k : string)
    (entries : list (string * string)) :
  JsObject.get k (cloneHeaders (Some (HI_Array entries)))
  = JsObject.get k (List.rev entries)
  /\ JsObject.get k (cloneHeaders (Some (HI_Headers entries)))
     = JsObject.get k (List.rev entries).
Proof. split; apply CloneFacts.get_fromEntries. Qed.

(** X11. The clone of a record is a faithful copy: it gives every name the
    value the record gives it, array indices and other names alike. A
    record has each name once. *)
Theorem cloneHeaders_record (k : string) (o : JsObject.t) :
  NoDup (map fst o) ->
  JsObject.get k (cloneHeaders (Some (HI_Record o))) = JsObject.get k o.
Proof. intros Hnd. now apply CloneFacts.get_spread. Qed.

Lemma cloneHeaders_record_witness :
  NoDup (map fst [("b", "1"); ("10", "x"); ("2", "y")])
  /\ JsObject.get "10"
       (cloneHeaders
          (Some (HI_Record [("b", "1"); ("10", "x"); ("2", "y")])))
     = Some "x".
Proof.
  assert (Hnd : NoDup (map fst [("b", "1"); ("10", "x"); ("2", "y")])).
  { repeat constructor; simpl; intuition discriminate. }
  split; [exact Hnd|].
  exact (cloneHeaders_record "10" [("b", "1"); ("10", "x"); ("2", "y")] Hnd).
Defined.

(** ** A [Headers] instance and the name [Authorization] *)

Lemma lowerCased_no_Authorization (h : Headers.t) :
  lowerCased h = true ->
  JsObject.has "Authorization" (JsObject.fromEntries h) = false.
Proof.
  intros Hlow. rewrite JsObjectFacts.has_fromEntries.
  unfold lowerCased in Hlow.
  induction h as [|[k v] h IH]; cbn [forallb existsb fst] in *;
    [reflexivity|].
  apply andb_true_iff in Hlow. destruct Hlow as [Hk Hh].
  rewrite (IH Hh), orb_false_r.
  destruct (String.eqb_spec "Authorization" k) as [<-|Hne]; [|reflexivity].
  discriminate Hk.
Qed.

(** X12. An authorization held by a [Headers] instance does not count as
    specified. undici keeps the names of a [Headers] instance in lower
    case, so its clone never has the name [Authorization], and the
    transport writes the credential next to whatever the caller put under
    [authorization], which it leaves as it is. *)
Theorem Headers_instance_unspecified (h : Headers.t)
    (auth : ApiCredentials) :
  lowerCased h = true ->
  let clone := cloneHeaders (Some (HI_Headers h)) in
  let sent := addAuthorizationHeaderIfUnspecified clone auth in
  tokenAuth clone = false
  /\ match auth with
     | ApiToken apiToken =>
         JsObject.get "Authorization" sent = Some ("Bearer " ++ apiToken)
     | AuthKeyEmail authKey authEmail =>
         JsObject.get "X-Auth-Key" sent = Some authKey
         /\ JsObject.get "X-Auth-Email" sent = Some authEmail
     end
  /\ JsObject.get "authorization" sent = JsObject.get "authorization" clone.
Proof.
  intros Hlow clone sent.
  assert (Hnone : tokenAuth clone = false)
    by (apply lowerCased_no_Authorization, Hlow).
  split; [exact Hnone|]. split.
  - exact (addAuthorization_sentAs clone auth Hnone).
  - unfold sent, addAuthorizationHeaderIfUnspecified.
    unfold tokenAuth in Hnone. rewrite Hnone. cbn [negb].
    destruct auth; now rewrite !JsObjectFacts.get_set_other by discriminate.
Qed.

Lemma Headers_instance_unspecified_witness :
  lowerCased Cases.ownHeaders = true
  /\ addAuthorizationHeaderIfUnspecified
       (cloneHeaders (Some (HI_Headers Cases.ownHeaders))) Sample.token
     = [("accept", "*/*"); ("authorization", "Basic dXNlcjpwdw==");
        ("Authorization", "Bearer t0ken")]
  /\ JsObject.get "Authorization"
       (addAuthorizationHeaderIfUnspecified
          (cloneHeaders (Some (HI_Headers Cases.ownHeaders))) Sample.token)
     = Some "Bearer t0ken".
Proof.
  split; [reflexivity|]. split; [reflexivity|].
  exact (proj1 (proj2 (Headers_instance_unspecified Cases.ownHeaders
                         Sample.token eq_refl))).
Defined.

(** ** What is logged *)

(** X13. Every [HEADERS:] line an operation logs is the JSON text of a
    record that has no property named [Authorization], whatever the
    credential and whatever the caller supplied. *)
Theorem header_log_without_Authorization ver sI RT parseJSON env op :
  Forall (fun args =>
            exists o, args = [LogString (JsObject.stringify o)]
                      /\ JsObject.has "Authorization" o = false)
    (headerLogs (calls env (perform ver sI RT parseJSON op))).
Proof.
  destruct op; unfold calls, perform, fetchInternal, performApiFetch,
    fetchKVGetValue, fetchR2Objects, fetchWorker.
  all: interp_cases.
  all: repeat (constructor;
               [eexists; split;
                [reflexivity | apply JsObjectFacts.has_delete_same]|]).
  all: constructor.
Qed.



(** X15. [performApiFetch] logs a [BODY:] line only for a body that is a
    [FormData]: once the caller is logged in with a credential and the
    resource starts with a slash, it logs the text of the form, followed
    by [null] and 2; for any other body, or none, it logs no such line. *)
Theorem body_logged_for_FormData_only ver sI env resource init queryParams
    abortSignal :
  logged "BODY:"
    (calls env (performApiFetch ver sI resource init queryParams
                  abortSignal))
  = match ri_body init with
    | Some (Body_FormData form) =>
        match env_login env, env_apiToken env with
        | inr true, inr _ =>
            if JsString.startsWith "/" resource
            then [[LogString (env_formDataText env form); LogNull;
                   LogNumber 2]]
            else []
        | _, _ => []
        end
    | _ => []
    end.
Proof.
  unfold calls, performApiFetch.
  destruct (ri_body init) as [[s|form|bytes]|].
  all: unfold assert, requireLoggedIn; exec_step.
  all: destruct (JsString.startsWith "/" resource); exec_step.
  all: destruct (env_login env) as [?|[|]]; exec_step;
    cbn [logged String.eqb Ascii.eqb Bool.eqb]; try reflexivity.
  all: destruct (env_apiToken env) as [?|auth]; exec_step;
    cbn [logged String.eqb Ascii.eqb Bool.eqb]; try reflexivity.
  all: repeat match goal with
         | |- context [match env_fetch ?e ?u ?i with _ => _ end] =>
             destruct (env_fetch e u i); exec_step
         end;
    cbn [logged String.eqb Ascii.eqb Bool.eqb]; reflexivity.
Qed.

(** ** [fetchInternal] over [performApiFetch] *)

Lemma interp_bind {A B : Type} (env : Env) (m : Async A) (f : A -> Async B) :
  interp env (bind m f)
  = match fst (interp env m) with
    | inr a =>
        (fst (interp env (f a)),
         (snd (interp env m) ++ snd (interp env (f a)))%list)
    | inl e => (inl e, snd (interp env m))
    end.
Proof.
  induction m as [a|e|c k IH]; simpl.
  - now destruct (interp env (f a)).
  - reflexivity.
  - destruct (answer env c) as [e|x]; [reflexivity|]. simpl.
    rewrite IH. now destruct (fst (interp env (k x))).
Qed.

(** X16. [fetchInternal] makes the calls of [performApiFetch] and then, if
    that returned a response, exactly four more, all of them log lines: the
    status line, the headers, the text of the response and the closing
    line. It sends no request of its own, and when [performApiFetch] throws
    it throws the same error and calls nothing more. *)
Theorem fetchInternal_over_performApiFetch ver sI RT parseJSON env resource
    init queryParams abortSignal :
  let api := performApiFetch ver sI resource init queryParams abortSignal in
  let internal := fetchInternal ver sI RT parseJSON resource init
                    queryParams abortSignal in
  (forall e, run env api = inl e ->
             run env internal = inl e /\ calls env internal = calls env api)
  /\ (forall response, run env api = inr response ->
        calls env internal
        = (calls env api
             ++ [Ev (logger_debug
                       [LogString "-- START CF API RESPONSE:";
                        LogString (Response.statusText response);
                        LogNumber (Response.status response)]) (inr tt);
                 Ev (logger_debugWithSanitization "HEADERS:"
                       [LogString
                          (JsObject.stringify
                             (JsObject.delete "Authorization"
                                (cloneHeaders
                                   (Some (HI_Headers
                                            (Response.headers response))))))])
                    (inr tt);
                 Ev (logger_debugWithSanitization "RESPONSE:"
                       [LogString (Response.text response)]) (inr tt);
                 Ev (logger_debug [LogString "-- END CF API RESPONSE"])
                    (inr tt)])%list)
  /\ requests (calls env internal) = requests (calls env api).
Proof.
  cbv zeta. unfold run, calls, fetchInternal. rewrite interp_bind.
  destruct (fst (interp env (performApiFetch ver sI resource init
                               queryParams abortSignal))) as [e|response].
  - split; [|split].
    + intros e' [= <-]. split; reflexivity.
    + intros response; discriminate.
    + reflexivity.
  - split; [|split].
    + intros e; discriminate.
    + intros response' [= <-]. cbn [snd]. f_equal.
      exec_step.
      repeat match goal with
             | |- context [interp _ (if ?b then _ else _)] => destruct b
             | |- context [interp _ (match ?x with _ => _ end)] => destruct x
             end; reflexivity.
    + cbn [snd]. rewrite requests_app. exec_step.
      repeat match goal with
             | |- context [interp _ (if ?b then _ else _)] => destruct b
             | |- context [interp _ (match ?x with _ => _ end)] => destruct x
             end; cbn [interp snd requests]; now rewrite app_nil_r.
Qed.

Lemma fetchInternal_over_performApiFetch_witness :
  run Cases.offline
    (performApiFetch Sample.version Sample.stringifyInit "/zones" emptyInit
       None None) = inl (Foreign "ECONNREFUSED")
  /\ run Cases.offline Sample.fetchZones = inl (Foreign "ECONNREFUSED").
Proof.
  split; [reflexivity|].
  exact (proj1 (proj1 (fetchInternal_over_performApiFetch Sample.version
                         Sample.stringifyInit Json.value Json.parseJSON
                         Cases.offline "/zones" emptyInit None None)
                  (Foreign "ECONNREFUSED") eq_refl)).
Defined.

(** ** The length of a truncated text *)

Lemma length_append (s s' : string) :
  String.length (s ++ s') = String.length s + String.length s'.
Proof. induction s as [|c s IH]; simpl; [reflexivity | now rewrite IH]. Qed.

Lemma prefix_append (s s' : string) : prefix s (s ++ s') = true.
Proof.
  induction s as [|c s IH]; simpl; [now destruct s'|].
  destruct (ascii_dec c c); [exact IH | contradiction].
Qed.

(** X17. [truncate] keeps the first [maxLength] code units of a longer text
    and appends a suffix of 15 code units and the digits of the length, so
    the result has [maxLength + 15 + digits] code units: a text just over
    the limit comes out longer than it went in. In every case the result
    starts with the first [maxLength] code units of the text. *)
Theorem truncate_length (text : string) (maxLength : nat) :
  (maxLength < String.length text ->
   String.length (truncate text maxLength)
   = maxLength + 15
     + String.length (JsString.ofNumber (String.length text)))
  /\ prefix (substring 0 maxLength text) (truncate text maxLength) = true.
Proof.
  split.
  - intros Hlong. rewrite truncate_long by exact Hlong.
    rewrite !length_append, substring_prefix_length.
    rewrite Nat.min_l by lia. simpl. lia.
  - unfold truncate.
    destruct (Nat.leb_spec (String.length text) maxLength).
    + apply substring_prefix.
    + apply prefix_append.
Qed.

Lemma truncate_length_witness :
  3 < String.length "abcde"
  /\ String.length (truncate "abcde" 3) = 19
  /\ truncate "abcde" 3 = "abc... (length = 5)".
Proof.
  assert (Hlong : 3 < String.length "abcde") by (simpl; lia).
  split; [exact Hlong|]. split; [|reflexivity].
  exact (proj1 (truncate_length "abcde" 3) Hlong).
Defined.

(** ** [fetchWorker] and the form data *)

(** X18. When the response is ok, has a body and a content type that
    starts with [multipart], and reading its form data fails, [fetchWorker]
    rejects with the error of that reading; it falls back to neither the
    single-file result nor the failure message of a bad status. *)
Theorem fetchWorker_formData_error ver env resource bodyInit response mime
    e :
  responses (calls env (fetchWorker ver resource bodyInit)) = [response] ->
  Response.ok response = true ->
  Response.body response <> None ->
  Headers.get "content-type" (Response.headers response) = Some mime ->
  JsString.startsWith "multipart" mime = true ->
  env_formData env response = inl e ->
  run env (fetchWorker ver resource bodyInit) = inl e.
Proof.
  unfold run, calls, fetchWorker, usesModules. interp_cases.
  all: try discriminate.
  all: intros [= <-] Hok Hbody Hmime Hmulti Hform.
  all: apply hasBody_spec in Hbody.
  all: repeat match goal with
         | H : (_ || _)%bool = true |- _ => apply orb_true_iff in H; destruct H
         | H : negb _ = true |- _ => apply negb_true_iff in H
         end.
  all: try congruence.
  all: match goal with
       | Hget : Headers.get _ _ = _,
         Hm : match Headers.get _ _ with _ => _ end = _ |- _ =>
           rewrite Hget in Hm
       end; congruence.
Qed.

Lemma fetchWorker_formData_error_witness :
  responses (calls (Sample.env Sample.token Sample.multipart)
               (fetchWorker Sample.version "/script" emptyInit))
  = [Sample.multipart]
  /\ Response.ok Sample.multipart = true
  /\ Response.body Sample.multipart <> None
  /\ Headers.get "content-type" (Response.headers Sample.multipart)
     = Some "multipart/form-data; boundary=xyz"
  /\ JsString.startsWith "multipart" "multipart/form-data; boundary=xyz"
     = true
  /\ env_formData (Sample.env Sample.token Sample.multipart)
       Sample.multipart = inl (Foreign "TypeError")
  /\ run (Sample.env Sample.token Sample.multipart)
       (fetchWorker Sample.version "/script" emptyInit)
     = inl (Foreign "TypeError").
Proof.
  assert (Hbody : Response.body Sample.multipart <> None) by discriminate.
  split; [reflexivity|]. split; [reflexivity|]. split; [exact Hbody|].
  split; [reflexivity|]. split; [reflexivity|]. split; [reflexivity|].
  exact (fetchWorker_formData_error Sample.version
           (Sample.env Sample.token Sample.multipart) "/script" emptyInit
           Sample.multipart "multipart/form-data; boundary=xyz"
           (Foreign "TypeError") eq_refl eq_refl Hbody eq_refl eq_refl
           eq_refl).
Defined.

(** ** What the operations return and write *)

(** X19. [performApiFetch] returns what [fetch] resolves with and throws
    what [fetch] rejects with, as it is: for a caller who is logged in with
    a credential and a resource that starts with a slash, its outcome is
    the outcome of the request, whatever the status of the response. *)
Theorem performApiFetch_outcome ver sI env resource init queryParams
    abortSignal auth :
  env_login env = inr true ->
  env_apiToken env = inr auth ->
  JsString.startsWith "/" resource = true ->
  run env (performApiFetch ver sI resource init queryParams abortSignal)
  = env_fetch env
      (env_baseUrl env ++ resource ++ queryString queryParams)
      {| fi_method := Some (methodOf init);
         fi_headers :=
           addUserAgent ver
             (addAuthorizationHeaderIfUnspecified
                (cloneHeaders (ri_headers init)) auth);
         fi_body := ri_body init;
         fi_signal := abortSignal |}.
Proof.
  intros Hlogin Htoken Hslash.
  unfold run, performApiFetch, assert, requireLoggedIn, queryString,
    methodOf.
  rewrite Hslash. exec_step. rewrite Hlogin. exec_step.
  rewrite Htoken. exec_step.
  destruct (ri_body init) as [[s|form|bytes]|]; exec_step.
  all: match goal with
       | |- context [match env_fetch ?e ?u ?i with _ => _ end] =>
           destruct (env_fetch e u i); reflexivity
       end.
Qed.

Lemma performApiFetch_outcome_witness :
  env_login (Sample.env Sample.token Sample.badGateway) = inr true
  /\ env_apiToken (Sample.env Sample.token Sample.badGateway)
     = inr Sample.token
  /\ JsString.startsWith "/" "/zones" = true
  /\ run (Sample.env Sample.token Sample.badGateway)
       (performApiFetch Sample.version Sample.stringifyInit "/zones"
          emptyInit None None)
     = inr Sample.badGateway.
Proof.
  split; [reflexivity|]. split; [reflexivity|]. split; [reflexivity|].
  exact (performApiFetch_outcome Sample.version Sample.stringifyInit
           (Sample.env Sample.token Sample.badGateway) "/zones" emptyInit
           None None Sample.token eq_refl eq_refl eq_refl).
Defined.

(** X20. The three raw fetches never call the logger: [fetchKVGetValue],
    [fetchR2Objects] and [fetchWorker] log neither the request nor its
    headers nor the response, on any path. *)
Theorem raw_fetches_do_not_log ver env :
  (forall accountId namespaceId key,
     loggerCalls (calls env (fetchKVGetValue accountId namespaceId key))
     = [])
  /\ (forall resource bodyInit,
        loggerCalls (calls env (fetchR2Objects ver resource bodyInit)) = [])
  /\ (forall resource bodyInit,
        loggerCalls (calls env (fetchWorker ver resource bodyInit)) = []).
Proof.
  split; [|split]; intros;
    unfold calls, fetchKVGetValue, fetchR2Objects, fetchWorker.
  all: interp_cases.
  all: reflexivity.
Qed.

(** X21. [fetchWorker] writes to [console.error] exactly when it rejects a
    response for its status or missing body: then it writes the [ok] flag
    and the body once, before throwing; for a response that is ok and has a
    body it writes nothing. *)
Theorem fetchWorker_console_error ver env resource bodyInit response :
  responses (calls env (fetchWorker ver resource bodyInit)) = [response] ->
  consoleErrors (calls env (fetchWorker ver resource bodyInit))
  = if Response.ok response && Response.hasBody response then []
    else [[LogBool (Response.ok response);
           LogBody (Response.body response)]].
Proof.
  unfold calls, fetchWorker. interp_cases.
  all: try discriminate.
  all: intros [= <-].
  all: repeat match goal with
         | H : (_ || _)%bool = true |- _ => apply orb_true_iff in H
         | H : (_ || _)%bool = false |- _ =>
             apply orb_false_iff in H; destruct H
         | H : negb _ = true |- _ => apply negb_true_iff in H
         | H : negb _ = false |- _ => apply negb_false_iff in H
         end.
  all: repeat match goal with
         | H : _ \/ _ |- _ => destruct H
         end.
  all: repeat match goal with
         | H : negb _ = true |- _ => apply negb_true_iff in H
         end.
  all: repeat match goal with
         | H : Response.ok _ = _ |- _ => rewrite H
         | H : Response.hasBody _ = _ |- _ => rewrite H
         end.
  all: rewrite ?andb_false_r; reflexivity.
Qed.

Lemma fetchWorker_console_error_witness :
  responses (calls (Sample.env Sample.token Sample.badGateway)
               (fetchWorker Sample.version "/script" emptyInit))
  = [Sample.badGateway]
  /\ consoleErrors (calls (Sample.env Sample.token Sample.badGateway)
                      (fetchWorker Sample.version "/script" emptyInit))
     = [[LogBool false; LogBody (Some "<html>502 Bad Gateway</html>")]].
Proof.
  split; [reflexivity|].
  exact (fetchWorker_console_error Sample.version
           (Sample.env Sample.token Sample.badGateway) "/script" emptyInit
           Sample.badGateway eq_refl).
Defined.
